(** * chop.stochastic: stochastic first-order optimizers

    A shallow embedding of [chop/stochastic.py]: the backtracking line
    search, the gradient normaliser and the four optimizers [PGD],
    [PGDMadry], [S3CM] and [FrankWolfe], followed by the properties of
    the specification that concern them.

    Modelling conventions.
    - Floating-point numbers are the real numbers: every arithmetic
      operation is exact, so rounding, overflow, infinities and NaN are
      not represented.  The theorems are statements about this exact
      arithmetic.
    - A tensor is the list of its entries; [unsqueeze(0)] and [squeeze]
      only reshape and are the identity on entries.
    - A Python exception is a [Raise] result.  A [step] returns the
      parameters as the exception left them, since all updates are done
      in place.
    - The oracles handed to the constructors are pure total functions. *)

From Stdlib Require Import Reals Lra Lia List Bool Arith ZArith.
From Stdlib Require Import Strings.String.
Import ListNotations.
Open Scope R_scope.

(** ** Python values, exceptions *)

Inductive exn : Set :=
| ValueError | TypeError | RuntimeError | IndexError | KeyError
| ZeroDivisionError | NameError | NotImplementedError.

Inductive result (A : Type) : Type :=
| Ok (a : A)
| Raise (e : exn).
Arguments Ok {A} a.
Arguments Raise {A} e.

Definition rbind {A B : Type} (m : result A) (k : A -> result B) : result B :=
  match m with
  | Ok a => k a
  | Raise e => Raise e
  end.

Notation "'let?' x ':=' m 'in' k" := (rbind m (fun x => k))
  (at level 10, x pattern, m at level 100, k at level 200).

(** The values a configuration argument ([lr], [momentum],
    [weight_decay], [step_size]) can be bound to. *)
Inductive pyval : Type :=
| PyFloat (r : R)
| PyInt (z : Z)
| PyStr (s : string)
| PyNone.

(** [type(v) == float] *)
Definition is_float (v : pyval) : bool :=
  match v with PyFloat _ => true | _ => false end.

(** [v == 'tag'] for a string literal *)
Definition py_eq_str (v : pyval) (tag : string) : bool :=
  match v with PyStr s => String.eqb s tag | _ => false end.

(** [v is None] *)
Definition is_None (v : pyval) : bool :=
  match v with PyNone => true | _ => false end.

(** A value used as a number in float arithmetic; a string or [None]
    there is a [TypeError]. *)
Definition as_number (v : pyval) : result R :=
  match v with
  | PyFloat r => Ok r
  | PyInt z => Ok (IZR z)
  | _ => Raise TypeError
  end.

Definition Rleb (a b : R) : bool := if Rle_dec a b then true else false.
Definition Rltb (a b : R) : bool := if Rlt_dec a b then true else false.

(** Division of two Python floats, as the arguments of the line search
    are documented to be: a zero divisor raises. Division of a tensor by
    a number does not raise, see [tdiv]. *)
Definition py_div (a b : R) : result R :=
  if Req_dec_T b 0 then Raise ZeroDivisionError else Ok (a / b).

(** ** Tensors *)

Definition tensor : Type := list R.

Fixpoint tmap2 (f : R -> R -> R) (a b : tensor) : tensor :=
  match a, b with
  | x :: a', y :: b' => f x y :: tmap2 f a' b'
  | _, _ => []
  end.

Definition tadd : tensor -> tensor -> tensor := tmap2 Rplus.
Definition tsub : tensor -> tensor -> tensor := tmap2 Rminus.
Definition tmul : tensor -> tensor -> tensor := tmap2 Rmult.
Definition tneg (a : tensor) : tensor := map Ropp a.
Definition tscale (c : R) (a : tensor) : tensor := map (Rmult c) a.
Definition tdiv (a : tensor) (c : R) : tensor := map (fun x => x / c) a.
Definition tabs (a : tensor) : tensor := map Rabs a.
Definition tsum (a : tensor) : R := fold_right Rplus 0 a.
(** [a.max()]; a tensor with no entry, on which [max] raises, is given
    the value [0]. *)
Definition tmax (a : tensor) : R :=
  match a with
  | [] => 0
  | x :: a' => fold_left Rmax a' x
  end.
Definition zeros_like (a : tensor) : tensor := map (fun _ => 0) a.

(** [torch.norm]: the Euclidean norm of the entries. *)
Definition tnorm (a : tensor) : R := sqrt (tsum (map (fun x => x * x) a)).

Definition sign (x : R) : R :=
  if Rlt_dec 0 x then 1 else if Rlt_dec x 0 then -1 else 0.
Definition tsign (a : tensor) : tensor := map sign a.

(** ** [backtracking_step_size] *)

(** [np.finfo(np.float32).eps] *)
Definition EPS : R := / 2 ^ 23.

Section LineSearch.

Variables (x : tensor) (f_t : R) (f_grad : tensor -> R * tensor).
Variables (certificate max_step_size : R).
Variables (update_direction : tensor) (norm_update_direction : R).

(** One pass through the body of the [for] loop, up to the test of the
    sufficient decrease condition: the trial step size, [f_next],
    [grad_next] and whether the condition holds. *)
Definition ls_trial (lipschitz_t : R) : result (R * R * tensor * bool) :=
  let? step_size_t :=
    py_div certificate (norm_update_direction * lipschitz_t) in
  let '(step_size_t, rhs) :=
    if Rlt_dec step_size_t max_step_size
    then (step_size_t, - 0.5 * step_size_t * certificate)
    else (max_step_size,
          - max_step_size * certificate
          + 0.5 * (max_step_size ^ 2) * lipschitz_t * norm_update_direction)
  in
  let '(f_next, grad_next) :=
    f_grad (tadd x (tscale step_size_t update_direction)) in
  Ok (step_size_t, f_next, grad_next, Rleb (f_next - f_t) (rhs + EPS)).

(** The [for ... else] loop with [S remaining] passes left.  The
    boolean of the result tells whether the warning of the [else]
    branch was emitted. *)
Fixpoint ls_for (remaining : nat) (lipschitz_t : R)
  : result (bool * (R * R * R * tensor)) :=
  let? (step_size_t, f_next, grad_next, sufficient) := ls_trial lipschitz_t in
  if sufficient
  then Ok (false, (step_size_t, lipschitz_t, f_next, grad_next))
  else
    let lipschitz_t := lipschitz_t * 2 in
    match remaining with
    | O => Ok (true, (step_size_t, lipschitz_t, f_next, grad_next))
    | S remaining' => ls_for remaining' lipschitz_t
    end.

(** The adjustment of the estimate before the loop. *)
Definition ls_initial_lipschitz (old_f_t : option R) (lipschitz_t : R)
  : result R :=
  match old_f_t with
  | Some old_f_t =>
      let? tmp :=
        py_div (certificate ^ 2)
               (2 * (old_f_t - f_t) * norm_update_direction) in
      Ok (Rmax (Rmin tmp lipschitz_t) (lipschitz_t * 0.9))
  | None => Ok lipschitz_t
  end.

End LineSearch.

Definition max_ls_iter : nat := 100.

(** The result is [(warned, (step_size_t, lipschitz_t, f_next, grad_next))]. *)
Definition backtracking_step_size
    (x : tensor) (f_t : R) (old_f_t : option R)
    (f_grad : tensor -> R * tensor) (certificate lipschitz_t max_step_size : R)
    (update_direction : tensor) (norm_update_direction : R)
  : result (bool * (R * R * R * tensor)) :=
  let? lipschitz_t :=
    ls_initial_lipschitz f_t certificate norm_update_direction
                         old_f_t lipschitz_t in
  ls_for x f_t f_grad certificate max_step_size update_direction
         norm_update_direction (pred max_ls_iter) lipschitz_t.

(** ** [normalize_gradient] *)

Definition normalize_gradient (grad : tensor) (normalization : string) : tensor :=
  if (normalization =? "none")%string then grad
  else if (normalization =? "Linf")%string then tdiv grad (tmax (tabs grad))
  else if (normalization =? "sign")%string then tsign grad
  else if (normalization =? "L2")%string then tdiv grad (tnorm grad)
  else grad.

(** ** Parameters, oracles and closures *)

(** [p.grad] when it is not [None]; [is_sparse] is the flag the steps
    test. *)
Inductive gradient : Type :=
| Dense (g : tensor)
| Sparse (g : tensor).

Definition is_sparse (g : gradient) : bool :=
  match g with Sparse _ => true | Dense _ => false end.

Definition values (g : gradient) : tensor :=
  match g with Dense t => t | Sparse t => t end.

(** A registered parameter [p]: its entries, [p.grad], and
    [self.state[p]], which is [None] while that dictionary is empty.
    The optimizers key their state by the identity of [p]; here it is
    the position in the list of parameters. *)
Record param (S : Type) : Type := mkParam {
  data : tensor;
  grad : option gradient;
  state : option S
}.
Arguments mkParam {S} data grad state.
Arguments data {S} p.
Arguments grad {S} p.
Arguments state {S} p.

(** [prox(point, step_size)]; the step size is [None] when the caller
    leaves it out. *)
Definition prox_oracle : Type := tensor -> option R -> tensor.

(** [lmo(direction, point)] returns [(update_direction, max_step_size)]. *)
Definition lmo_oracle : Type := tensor -> tensor -> tensor * R.

(** The functions the constructors append to [self.prox] and [self.lmo].
    A closure made in a [for] loop refers to the loop variable of
    [__init__], not to the value it had when the closure was made: when
    it is called it reads what the variable is bound to then, which is
    what the last pass of the loop left.  A [late_prox] or [late_lmo]
    closure is such a function; the optimizer record keeps the final
    binding of the variable next to the list of closures.
    [identity_prox] is [lambda x, s=None: x], which reads no variable. *)
Inductive prox_closure : Set := late_prox | identity_prox.
Inductive lmo_closure : Set := late_lmo.

(** [l[idx]] *)
Definition getitem {A : Type} (l : list A) (idx : nat) : result A :=
  match nth_error l idx with
  | Some a => Ok a
  | None => Raise IndexError
  end.

(** ** In-place updates of one parameter *)

Section ParamMonad.

Context {S : Type}.

(** A computation on the parameter being processed: it may change the
    parameter's entries and state, and returns or raises. *)
Definition M (A : Type) : Type := param S -> param S * result A.

Definition ret {A : Type} (a : A) : M A := fun p => (p, Ok a).
Definition raise {A : Type} (e : exn) : M A := fun p => (p, Raise e).
Definition lift {A : Type} (r : result A) : M A := fun p => (p, r).

Definition mbind {A B : Type} (m : M A) (k : A -> M B) : M B :=
  fun p =>
    match m p with
    | (p', Ok a) => k a p'
    | (p', Raise e) => (p', Raise e)
    end.

Definition get_data : M tensor := fun p => (p, Ok (data p)).
Definition get_state : M (option S) := fun p => (p, Ok (state p)).

(** an assignment to a key of [self.state[p]], or an in-place update
    of one of its tensors *)
Definition set_state (s : S) : M unit :=
  fun p => (mkParam (data p) (grad p) (Some s), Ok tt).

(** [p.copy_(new_p)] *)
Definition copy_ (new_p : tensor) : M unit :=
  fun p => (mkParam new_p (grad p) (state p), Ok tt).

End ParamMonad.

Notation "x <- m ;; k" := (mbind m (fun x => k))
  (at level 61, m at next level, right associativity).
Notation "' pat <- m ;; k" := (mbind m (fun x => match x with pat => k end))
  (at level 61, pat pattern, m at next level, right associativity).
Notation "m ;; k" := (mbind m (fun _ => k))
  (at level 61, right associativity).

Section ForParams.

Context {S L : Type}.

(** [body locals g]: the loop body for a parameter whose gradient is
    [g], with the local variables of [step] that live across passes
    ([idx]; for [PGDMadry] also [step_size]). *)
Variable body : L -> gradient -> @M S L.

(** [for p in group['params']: if p.grad is None: continue ...] *)
Fixpoint for_params (locals : L) (params : list (param S))
  : list (param S) * result L :=
  match params with
  | [] => ([], Ok locals)
  | p :: rest =>
      match grad p with
      | None =>
          let '(rest', r) := for_params locals rest in (p :: rest', r)
      | Some g =>
          match body locals g p with
          | (p', Raise e) => (p' :: rest, Raise e)
          | (p', Ok locals') =>
              let '(rest', r) := for_params locals' rest in (p' :: rest', r)
          end
      end
  end.

End ForParams.

(** [loss = closure()] when a closure is given: it may recompute the
    gradients, and returns the loss. *)
Definition closure_t (S : Type) : Type :=
  option (list (param S) -> list (param S) * R).

Definition call_closure {S : Type} (closure : closure_t S)
    (params : list (param S)) : list (param S) * option R :=
  match closure with
  | None => (params, None)
  | Some c => let '(params', loss) := c params in (params', Some loss)
  end.

(** [Optimizer.__init__(params, defaults)] of the base class: the
    parameters are registered in one group with no state yet. *)
Definition register {S : Type} (params : list tensor) : list (param S) :=
  map (fun p => mkParam p None None) params.

(** ** [PGD] *)

Module PGD.

Definition POSSIBLE_NORMALIZATIONS : list string :=
  ["none"; "L2"; "Linf"; "sign"]%string.

Record optimizer : Type := {
  prox : list prox_closure;
  prox_el : option prox_oracle;  (* the loop variable of [__init__] *)
  lr : pyval;
  momentum : pyval;
  normalization : string
}.

(** [self.state[p]]; the key ['certificate'] is absent until the first
    update of [p] completes. *)
Record State : Type := {
  st_step : nat;
  st_grad_estimate : tensor;
  st_certificate : option R
}.

(** [for prox_el in prox: ...] *)
Fixpoint wrap (prox : list (option prox_oracle))
    (self_prox : list prox_closure) (prox_el : option prox_oracle)
  : list prox_closure * option prox_oracle :=
  match prox with
  | [] => (self_prox, prox_el)
  | el :: rest =>
      wrap rest
           (self_prox ++ [match el with
                          | Some _ => late_prox
                          | None => identity_prox
                          end])
           el
  end.

(** [__init__] *)
Definition init (params : list tensor)
    (prox : option (list (option prox_oracle)))
    (lr momentum : pyval) (normalization : string)
  : result (optimizer * list (param State)) :=
  let prox :=
    match prox with
    | None => repeat None (List.length params)
    | Some l => l
    end in
  let '(self_prox, prox_el) := wrap prox [] None in
  if negb (is_float lr || py_eq_str lr "sublinear") then Raise ValueError
  else if match momentum with
          | PyFloat m => negb (Rleb 0 m && Rleb m 1)
          | _ => false
          end then Raise ValueError
  else if negb (existsb (String.eqb normalization) POSSIBLE_NORMALIZATIONS)
  then Raise ValueError
  else Ok ({| prox := self_prox; prox_el := prox_el; lr := lr;
              momentum := momentum; normalization := normalization |},
           register params).

(** A call [f(x, s)] of an element [f] of [self.prox]: the oracle is
    called on the point alone. *)
Definition call (self : optimizer) (f : prox_closure) (x : tensor) (s : R)
  : result tensor :=
  match f with
  | identity_prox => Ok x
  | late_prox =>
      match prox_el self with
      | Some prox_el => Ok (prox_el x None)
      | None => Raise TypeError
      end
  end.

(** [1. / (state['step'] + 1.)] or [self.lr] *)
Definition step_size_of (self : optimizer) (step : nat) : pyval :=
  if py_eq_str (lr self) "sublinear"
  then PyFloat (1 / (INR step + 1))
  else lr self.

(** The body of the loop of [step] for a parameter with a gradient. *)
Definition body (self : optimizer) (idx : nat) (g : gradient) : M nat :=
  if is_sparse g then raise RuntimeError
  else
    let grad := values g in
    p <- get_data ;;
    state <- get_state ;;
    let '(step, grad_estimate, certificate) :=
      match state with
      | Some s => (st_step s, st_grad_estimate s, st_certificate s)
      | None => (O, zeros_like p, None)
      end in
    let step := S step in
    set_state {| st_step := step; st_grad_estimate := grad_estimate;
                 st_certificate := certificate |} ;;
    momentum <- lift (as_number (momentum self)) ;;
    let grad_estimate :=
      tadd grad_estimate (tscale (1 - momentum) (tsub grad grad_estimate)) in
    set_state {| st_step := step; st_grad_estimate := grad_estimate;
                 st_certificate := certificate |} ;;
    let grad_est := normalize_gradient grad_estimate (normalization self) in
    f <- lift (getitem (prox self) idx) ;;
    step_size <- lift (as_number (step_size_of self step)) ;;
    new_p <- lift (call self f (tsub p (tscale step_size grad_est)) 1) ;;
    set_state {| st_step := step; st_grad_estimate := grad_estimate;
                 st_certificate :=
                   Some (tnorm (tdiv (tsub p new_p) step_size)) |} ;;
    copy_ new_p ;;
    ret (S idx).

Definition step (self : optimizer) (closure : closure_t State)
    (params : list (param State))
  : list (param State) * result (option R) :=
  let '(params, loss) := call_closure closure params in
  let '(params, r) := for_params (body self) O params in
  (params, let? _ := r in Ok loss).

End PGD.

(** ** [PGDMadry] *)

Module PGDMadry.

Record optimizer : Type := {
  prox : list prox_closure;
  prox_el : option prox_oracle;  (* loop variable of [__init__] *)
  lmo : list lmo_closure;
  lmo_el : option lmo_oracle;    (* loop variable of [__init__] *)
  lr : pyval
}.

Record State : Type := {
  st_step : nat;
  st_certificate : option R
}.

(** [for prox_el in prox: ...]: a [None] entry rebinds the loop
    variable to the identity function before [_prox] is defined. *)
Fixpoint wrap_prox (prox : list (option prox_oracle))
    (self_prox : list prox_closure) (prox_el : option prox_oracle)
  : list prox_closure * option prox_oracle :=
  match prox with
  | [] => (self_prox, prox_el)
  | el :: rest =>
      let el :=
        match el with
        | None => fun (x : tensor) (s : option R) => x
        | Some f => f
        end in
      wrap_prox rest (self_prox ++ [late_prox]) (Some el)
  end.

(** [for lmo_el in lmo: ...] *)
Fixpoint wrap_lmo (lmo : list lmo_oracle)
    (self_lmo : list lmo_closure) (lmo_el : option lmo_oracle)
  : list lmo_closure * option lmo_oracle :=
  match lmo with
  | [] => (self_lmo, lmo_el)
  | el :: rest => wrap_lmo rest (self_lmo ++ [late_lmo]) (Some el)
  end.

(** [__init__]; iterating over the default [prox=None] is a
    [TypeError]. *)
Definition init (params : list tensor) (lmo : list lmo_oracle)
    (prox : option (list (option prox_oracle))) (lr : pyval)
  : result (optimizer * list (param State)) :=
  match prox with
  | None => Raise TypeError
  | Some prox =>
      let '(self_prox, prox_el) := wrap_prox prox [] None in
      let '(self_lmo, lmo_el) := wrap_lmo lmo [] None in
      if negb (is_float lr || py_eq_str lr "sublinear") then Raise ValueError
      else Ok ({| prox := self_prox; prox_el := prox_el;
                  lmo := self_lmo; lmo_el := lmo_el; lr := lr |},
               register params)
  end.

(** [_prox(x, s)] *)
Definition call_prox (self : optimizer) (f : prox_closure)
    (x : tensor) (s : option R) : result tensor :=
  match f with
  | identity_prox => Ok x
  | late_prox =>
      match prox_el self with
      | Some prox_el => Ok (prox_el x s)
      | None => Raise NameError
      end
  end.

(** [_lmo(u, x)] *)
Definition call_lmo (self : optimizer) (f : lmo_closure)
    (u x : tensor) : result (tensor * R) :=
  match f, lmo_el self with
  | late_lmo, Some lmo_el => Ok (lmo_el u x)
  | late_lmo, None => Raise NameError
  end.

(** The body of the loop of [step]; [step_size] is the local variable
    that starts as the argument of [step]. *)
Definition body (self : optimizer) (locals : nat * pyval) (g : gradient)
  : M (nat * pyval) :=
  let '(idx, step_size) := locals in
  if is_sparse g then raise RuntimeError
  else
    let grad := values g in
    p <- get_data ;;
    state <- get_state ;;
    let '(step, certificate) :=
      match state with
      | Some s => (st_step s, st_certificate s)
      | None => (O, None)
      end in
    let step := S step in
    set_state {| st_step := step; st_certificate := certificate |} ;;
    let step_size :=
      if py_eq_str (lr self) "sublinear"
      then PyFloat (1 / (INR step + 1))
      else lr self in
    f <- lift (getitem (lmo self) idx) ;;
    '(lmo_res, _) <- lift (call_lmo self f (tneg grad) p) ;;
    let normalized_grad := tadd lmo_res p in
    f <- lift (getitem (prox self) idx) ;;
    s <- lift (as_number step_size) ;;
    new_p <- lift (call_prox self f (tadd p (tscale s normalized_grad)) None) ;;
    set_state {| st_step := step;
                 st_certificate := Some (tnorm (tdiv (tsub p new_p) s)) |} ;;
    copy_ new_p ;;
    ret (S idx, step_size).

Definition step (self : optimizer) (step_size : pyval)
    (closure : closure_t State) (params : list (param State))
  : list (param State) * result (option R) :=
  let '(params, loss) := call_closure closure params in
  let '(params, r) := for_params (body self) (O, step_size) params in
  (params, let? _ := r in Ok loss).

End PGDMadry.

(** ** [S3CM] *)

Module S3CM.

Definition POSSIBLE_NORMALIZATIONS : list string :=
  ["none"; "L2"; "Linf"; "sign"]%string.

Record optimizer : Type := {
  prox1 : list prox_closure;
  prox1_ : option prox_oracle;  (* loop variable of [__init__] *)
  prox2 : list prox_closure;
  prox2_ : option prox_oracle;  (* loop variable of [__init__] *)
  lr : R;
  normalization : string
}.

(** [self.state[p]]: the keys ['iterate_2'] and ['dual'] are absent
    when the initialization was interrupted by an exception. *)
Record State : Type := {
  st_step : nat;
  st_iterate_1 : tensor;
  st_iterate_2 : option tensor;
  st_dual : option tensor
}.

Definition default (el : option prox_oracle) : prox_oracle :=
  match el with
  | None => fun (x : tensor) (s : option R) => x
  | Some f => f
  end.

(** [for prox1_, prox2_ in zip(prox1, prox2): ...] *)
Fixpoint wrap (prox12 : list (option prox_oracle * option prox_oracle))
    (self_prox1 self_prox2 : list prox_closure)
    (prox1_ prox2_ : option prox_oracle)
  : list prox_closure * list prox_closure
    * option prox_oracle * option prox_oracle :=
  match prox12 with
  | [] => (self_prox1, self_prox2, prox1_, prox2_)
  | (el1, el2) :: rest =>
      wrap rest (self_prox1 ++ [late_prox]) (self_prox2 ++ [late_prox])
           (Some (default el1)) (Some (default el2))
  end.

(** [__init__] *)
Definition init (params : list tensor)
    (prox1 prox2 : option (list (option prox_oracle)))
    (lr : pyval) (normalization : string)
  : result (optimizer * list (param State)) :=
  match lr with
  | PyFloat lr =>
      if negb (existsb (String.eqb normalization) POSSIBLE_NORMALIZATIONS)
      then Raise ValueError
      else
        let prox1 :=
          match prox1 with
          | None => repeat None (List.length params)
          | Some l => l
          end in
        let prox2 :=
          match prox2 with
          | None => repeat None (List.length params)
          | Some l => l
          end in
        let '(self_prox1, self_prox2, prox1_, prox2_) :=
          wrap (combine prox1 prox2) [] [] None None in
        Ok ({| prox1 := self_prox1; prox1_ := prox1_;
               prox2 := self_prox2; prox2_ := prox2_;
               lr := lr; normalization := normalization |},
            register params)
  | _ => Raise ValueError
  end.

(** A call [f(x, s)] of an element of [self.prox1] or [self.prox2],
    whose loop variable is bound to [cell]. *)
Definition call (cell : option prox_oracle) (f : prox_closure)
    (x : tensor) (s : R) : result tensor :=
  match f with
  | identity_prox => Ok x
  | late_prox =>
      match cell with
      | Some prox_ => Ok (prox_ x (Some s))
      | None => Raise NameError
      end
  end.

(** [state[key]] *)
Definition lookup {A : Type} (v : option A) : result A :=
  match v with
  | Some a => Ok a
  | None => Raise KeyError
  end.

(** The body of the loop of [step]. *)
Definition body (self : optimizer) (idx : nat) (g : gradient) : M nat :=
  let grad := normalize_gradient (values g) (normalization self) in
  if is_sparse g then raise RuntimeError
  else
    p <- get_data ;;
    state <- get_state ;;
    state <-
      match state with
      | Some s => ret s
      | None =>
          let iterate_1 := p in
          set_state {| st_step := O; st_iterate_1 := iterate_1;
                       st_iterate_2 := None; st_dual := None |} ;;
          f <- lift (getitem (prox2 self) idx) ;;
          iterate_2 <- lift (call (prox2_ self) f p (lr self)) ;;
          set_state {| st_step := O; st_iterate_1 := iterate_1;
                       st_iterate_2 := Some iterate_2; st_dual := None |} ;;
          let s := {| st_step := O; st_iterate_1 := iterate_1;
                      st_iterate_2 := Some iterate_2;
                      st_dual :=
                        Some (tdiv (tsub iterate_1 iterate_2) (lr self)) |} in
          set_state s ;;
          ret s
      end ;;
    let step := st_step state in
    let iterate_1 := st_iterate_1 state in
    f <- lift (getitem (prox2 self) idx) ;;
    dual <- lift (lookup (st_dual state)) ;;
    iterate_2 <-
      lift (call (prox2_ self) f (tadd iterate_1 (tscale (lr self) dual))
                 (lr self)) ;;
    set_state {| st_step := step; st_iterate_1 := iterate_1;
                 st_iterate_2 := Some iterate_2; st_dual := Some dual |} ;;
    let dual := tadd dual (tdiv (tsub iterate_1 iterate_2) (lr self)) in
    set_state {| st_step := step; st_iterate_1 := iterate_1;
                 st_iterate_2 := Some iterate_2; st_dual := Some dual |} ;;
    f <- lift (getitem (prox1 self) idx) ;;
    iterate_1 <-
      lift (call (prox1_ self) f
                 (tsub iterate_2 (tscale (lr self) (tadd grad dual)))
                 (lr self)) ;;
    set_state {| st_step := step; st_iterate_1 := iterate_1;
                 st_iterate_2 := Some iterate_2; st_dual := Some dual |} ;;
    copy_ iterate_2 ;;
    ret (S idx).

(** [step] has no [return]: its value is [None]. *)
Definition step (self : optimizer) (closure : closure_t State)
    (params : list (param State))
  : list (param State) * result (option R) :=
  let '(params, loss) := call_closure closure params in
  let '(params, r) := for_params (body self) O params in
  (params, let? _ := r in Ok None).

End S3CM.

(** ** [PairwiseFrankWolfe] *)

Module PairwiseFrankWolfe.

(** [__init__] ends in [raise NotImplementedError]. *)
Definition init (params : list tensor) (lmo_pairwise : lmo_oracle)
    (lr momentum : pyval) : result unit :=
  if negb (is_float lr || py_eq_str lr "sublinear") then Raise ValueError
  else Raise NotImplementedError.

End PairwiseFrankWolfe.

(** ** [FrankWolfe] *)

Module FrankWolfe.

Definition POSSIBLE_NORMALIZATIONS : list string :=
  ["gradient"; "none"]%string.

Record optimizer : Type := {
  lmo : list lmo_closure;
  oracle : option lmo_oracle;  (* loop variable of [__init__] *)
  lr : pyval;
  momentum : pyval;
  weight_decay : pyval;
  normalization : string
}.

Record State : Type := {
  st_step : nat;
  st_grad_estimate : tensor;
  st_certificate : option R
}.

(** [for oracle in lmo: ...] *)
Fixpoint wrap (lmo : list lmo_oracle)
    (self_lmo : list lmo_closure) (oracle : option lmo_oracle)
  : list lmo_closure * option lmo_oracle :=
  match lmo with
  | [] => (self_lmo, oracle)
  | el :: rest => wrap rest (self_lmo ++ [late_lmo]) (Some el)
  end.

(** [__init__] *)
Definition init (params : list tensor) (lmo : list lmo_oracle)
    (lr momentum weight_decay : pyval) (normalization : string)
  : result (optimizer * list (param State)) :=
  let '(self_lmo, oracle) := wrap lmo [] None in
  if match lr with
     | PyFloat lr => negb (Rltb 0 lr && Rleb lr 1)
     | _ => false
     end then Raise ValueError
  else if match momentum with
          | PyFloat m => negb (Rleb 0 m && Rleb m 1)
          | _ => false
          end then Raise ValueError
  else
    let? wd := as_number weight_decay in
    if negb (Rleb 0 wd) then Raise ValueError
    else if negb (existsb (String.eqb normalization) POSSIBLE_NORMALIZATIONS)
    then Raise ValueError
    else Ok ({| lmo := self_lmo; oracle := oracle; lr := lr;
                momentum := momentum; weight_decay := weight_decay;
                normalization := normalization |},
             register params).

(** [_lmo(u, x)] *)
Definition call (self : optimizer) (f : lmo_closure) (u x : tensor)
  : result (tensor * R) :=
  match f, oracle self with
  | late_lmo, Some oracle => Ok (oracle u x)
  | late_lmo, None => Raise NameError
  end.

(** The body of the loop of [step]. *)
Definition body (self : optimizer) (idx : nat) (g : gradient) : M nat :=
  p <- get_data ;;
  wd <- lift (as_number (weight_decay self)) ;;
  if is_sparse g then raise RuntimeError
  else
    let grad := tadd (values g) (tscale wd p) in
    state <- get_state ;;
    let '(step, grad_estimate, certificate) :=
      match state with
      | Some s => (st_step s, st_grad_estimate s, st_certificate s)
      | None => (O, zeros_like p, None)
      end in
    set_state {| st_step := step; st_grad_estimate := grad_estimate;
                 st_certificate := certificate |} ;;
    step_size <-
      (if py_eq_str (lr self) "sublinear" then ret (1 / (INR step + 1))
       else match lr self with
            | PyFloat lr => ret lr
            | _ => raise ValueError
            end) ;;
    let momentum :=
      if is_None (momentum self)
      then PyFloat (1 - Rpower (1 / (INR step + 1)) (1 / 3))
      else momentum self in
    let step := S step in
    set_state {| st_step := step; st_grad_estimate := grad_estimate;
                 st_certificate := certificate |} ;;
    momentum <- lift (as_number momentum) ;;
    let grad_estimate :=
      tadd grad_estimate (tscale (1 - momentum) (tsub grad grad_estimate)) in
    set_state {| st_step := step; st_grad_estimate := grad_estimate;
                 st_certificate := certificate |} ;;
    f <- lift (getitem (lmo self) idx) ;;
    '(update_direction, _) <- lift (call self f (tneg grad_estimate) p) ;;
    set_state {| st_step := step; st_grad_estimate := grad_estimate;
                 st_certificate :=
                   Some (tsum (tmul (tneg grad_estimate) update_direction)) |} ;;
    let step_size :=
      if (normalization self =? "gradient")%string
      then Rmin 1 (step_size * tnorm grad_estimate / tnorm update_direction)
      else step_size in
    copy_ (tadd p (tscale step_size update_direction)) ;;
    ret (S idx).

Definition step (self : optimizer) (closure : closure_t State)
    (params : list (param State))
  : list (param State) * result (option R) :=
  let '(params, loss) := call_closure closure params in
  let '(params, r) := for_params (body self) O params in
  (params, let? _ := r in Ok loss).

End FrankWolfe.

(** ** The training loop *)

Definition set_grad {S : Type} (g : option gradient) (p : param S) : param S :=
  mkParam (data p) g (state p).

(** The caller binds [p.grad] of each parameter before a step. *)
Fixpoint with_grads {S : Type} (grads : list (option gradient))
    (params : list (param S)) : list (param S) :=
  match grads, params with
  | g :: grads', p :: params' => set_grad g p :: with_grads grads' params'
  | _, _ => params
  end.

(** [n] successive calls of a [step], the gradients staying as they
    are; the parameters after the last call. *)
Fixpoint steps {S : Type}
    (step : list (param S) -> list (param S) * result (option R))
    (n : nat) (params : list (param S)) : list (param S) :=
  match n with
  | O => params
  | S n' => fst (step (steps step n' params))
  end.

(** ** Objectives and oracles used as inputs *)

(** [f(x) = 0.5 x^2] with its gradient. *)
Definition half_square (x : tensor) : R * tensor :=
  (0.5 * tsum (tmul x x), x).

(** [f(x) = 0.5 M x^2] with [M = 2^101] and its gradient. *)
Definition steep_square (x : tensor) : R * tensor :=
  (0.5 * 2 ^ 101 * tsum (tmul x x), tscale (2 ^ 101) x).

(** Projection onto the box [[lo, hi]]. *)
Definition box_prox (lo hi : R) : prox_oracle :=
  fun x _ => map (fun v => Rmax lo (Rmin hi v)) x.

(** The proximal operator of [0.5 |x|^2]: [x / (1 + s)]; the point
    itself when no step size is given. *)
Definition ridge_prox : prox_oracle :=
  fun x s =>
    match s with
    | Some s => tdiv x (1 + s)
    | None => x
    end.

(** The linear minimization oracle of the L-infinity ball of radius
    [alpha]. *)
Definition linf_ball_lmo (alpha : R) : lmo_oracle :=
  fun u x => (tsub (tscale alpha (tsign u)) x, 1).

(** * Properties *)

(** ** Line search *)

Lemma pow_double_O (L : R) : L * 2 ^ 0 = L.
Proof. simpl. apply Rmult_1_r. Qed.

Lemma pow_double_S (L : R) (k : nat) : L * 2 ^ S k = L * 2 * 2 ^ k.
Proof. simpl. symmetry. apply Rmult_assoc. Qed.

Section LineSearchFacts.

Variables (x : tensor) (f_t : R) (f_grad : tensor -> R * tensor).
Variables (certificate max_step_size : R).
Variables (update_direction : tensor) (norm_update_direction : R).

Local Abbreviation trial :=
  (ls_trial x f_t f_grad certificate max_step_size
            update_direction norm_update_direction).
Local Abbreviation loop :=
  (ls_for x f_t f_grad certificate max_step_size
          update_direction norm_update_direction).

Lemma ls_for_accept (n : nat) (L s f : R) (g : tensor) :
  trial L = Ok (s, f, g, true) ->
  loop n L = Ok (false, (s, L, f, g)).
Proof.
  intros H. destruct n; simpl; rewrite H; reflexivity.
Qed.

Lemma ls_for_reject (n : nat) (L s f : R) (g : tensor) :
  trial L = Ok (s, f, g, false) ->
  loop (S n) L = loop n (L * 2).
Proof.
  intros H. simpl. rewrite H. reflexivity.
Qed.

Lemma ls_for_last (L s f : R) (g : tensor) :
  trial L = Ok (s, f, g, false) ->
  loop O L = Ok (true, (s, L * 2, f, g)).
Proof.
  intros H. simpl. rewrite H. reflexivity.
Qed.

(** When every pass rejects, the loop ends in its [else] branch with
    the values of the last pass. *)
Lemma ls_for_exhausted (n : nat) : forall L : R,
  (forall k, (k <= n)%nat ->
     exists s f g, trial (L * 2 ^ k) = Ok (s, f, g, false)) ->
  exists s f g,
    trial (L * 2 ^ n) = Ok (s, f, g, false) /\
    loop n L = Ok (true, (s, L * 2 ^ S n, f, g)).
Proof.
  induction n as [|n IH]; intros L H.
  - destruct (H O (Nat.le_refl _)) as (s & f & g & E).
    exists s, f, g. split; [exact E|].
    rewrite pow_double_O in E. rewrite pow_double_S, pow_double_O.
    now apply ls_for_last.
  - destruct (H O (Nat.le_0_l _)) as (s0 & f0 & g0 & E0).
    rewrite pow_double_O in E0.
    rewrite (ls_for_reject n _ _ _ _ E0).
    destruct (IH (L * 2)) as (s & f & g & E & Hl).
    + intros k Hk. destruct (H (S k)) as (s' & f' & g' & E'); [lia|].
      exists s', f', g'.
      rewrite <- pow_double_S. exact E'.
    + exists s, f, g. split.
      * rewrite pow_double_S. exact E.
      * rewrite Hl. rewrite <- pow_double_S. reflexivity.
Qed.

End LineSearchFacts.

Lemma Rleb_false (a b : R) : b < a -> Rleb a b = false.
Proof. intros H. unfold Rleb. destruct (Rle_dec a b); [lra | reflexivity]. Qed.

Lemma Rleb_true (a b : R) : a <= b -> Rleb a b = true.
Proof. intros H. unfold Rleb. destruct (Rle_dec a b); [reflexivity | lra]. Qed.

Lemma Rltb_true (a b : R) : a < b -> Rltb a b = true.
Proof. intros H. unfold Rltb. destruct (Rlt_dec a b); [reflexivity | lra]. Qed.

Lemma py_div_ok (a b : R) : b <> 0 -> py_div a b = Ok (a / b).
Proof.
  intros H. unfold py_div. destruct (Req_dec_T b 0); [contradiction | reflexivity].
Qed.

(** *** The search on [0.5 x^2] from [x = 0] *)

(** A pass with estimate [L >= 1] tries the unclamped step [1 / L]. *)
Lemma half_square_trial (L : R) :
  1 <= L ->
  ls_trial [0] 0 half_square 1 10 [1] 1 L
  = Ok (1 / (1 * L),
        0.5 * ((0 + 1 / (1 * L) * 1) * (0 + 1 / (1 * L) * 1) + 0),
        [0 + 1 / (1 * L) * 1],
        Rleb (0.5 * ((0 + 1 / (1 * L) * 1) * (0 + 1 / (1 * L) * 1) + 0) - 0)
             (- 0.5 * (1 / (1 * L)) * 1 + EPS)).
Proof.
  intros HL. unfold ls_trial.
  rewrite py_div_ok by lra. simpl rbind.
  assert (Hs : 1 / (1 * L) <= 1).
  { apply Rmult_le_reg_r with (r := L); [lra|].
    replace (1 / (1 * L) * L) with 1 by (field; lra). lra. }
  destruct (Rlt_dec (1 / (1 * L)) 10); [reflexivity | lra].
Qed.

Lemma half_square_reject (n : nat) (L : R) :
  1 <= L <= 4194304 ->
  ls_for [0] 0 half_square 1 10 [1] 1 (S n) L
  = ls_for [0] 0 half_square 1 10 [1] 1 n (L * 2).
Proof.
  intros [H1 H2]. eapply ls_for_reject.
  rewrite half_square_trial by exact H1.
  rewrite Rleb_false; [reflexivity|].
  assert (Hs : / 4194304 <= 1 / (1 * L)).
  { replace (1 / (1 * L)) with (/ L) by (field; lra).
    apply Rinv_le_contravar; lra. }
  unfold EPS. set (s := 1 / (1 * L)) in *. nra.
Qed.

Lemma half_square_accept (n : nat) :
  ls_for [0] 0 half_square 1 10 [1] 1 n 8388608
  = Ok (false, (/ 2 ^ 23, 2 ^ 23, / 2 ^ 47, [/ 2 ^ 23])).
Proof.
  replace (2 ^ 23) with 8388608 by lra.
  replace (2 ^ 47) with 140737488355328 by lra.
  erewrite ls_for_accept.
  2:{ rewrite half_square_trial by lra.
      rewrite Rleb_true; [reflexivity|]. unfold EPS. lra. }
  repeat f_equal; lra.
Qed.

(** Runs the search on the input of the example up to its result. *)
Ltac run_half_square_search :=
  cbv beta iota delta [backtracking_step_size ls_initial_lipschitz rbind];
  change (pred max_ls_iter) with 99%nat;
  do 23 (rewrite half_square_reject by (split; lra));
  replace (1 * 2 * 2 * 2 * 2 * 2 * 2 * 2 * 2 * 2 * 2 * 2 * 2 * 2 * 2 * 2
           * 2 * 2 * 2 * 2 * 2 * 2 * 2 * 2) with 8388608 by lra;
  rewrite half_square_accept.

(** C4 (as amended): on [f(x) = 0.5 x^2] from [x = 0] with [f_t = f(0)],
    no [old_f_t], direction [1], certificate [1], [max_step_size = 10],
    squared direction norm [1] and initial estimate [1], the search
    rejects the step sizes [1, 1/2, ..., 2^-22], doubling the estimate
    each time, and accepts [step_size = 2^-23] on its 24th trial: it
    returns the estimate [2^23], [f_next = 2^-47] and the gradient
    [2^-23], and emits no warning. *)
Theorem backtracking_half_square_accepts_24th_trial :
  backtracking_step_size [0] 0 None half_square 1 1 10 [1] 1
  = Ok (false, (/ 2 ^ 23, 2 ^ 23, / 2 ^ 47, [/ 2 ^ 23])).
Proof.
  run_half_square_search.
  reflexivity.
Qed.

(** C4 (as stated) fails: the first trial does try [step_size = 1] and
    finds [f_next = 0.5], but the sufficient decrease condition
    [0.5 - 0 <= -0.5 + EPS] is false there, and the search does not
    return that step. *)
Lemma backtracking_half_square_first_trial_rejected :
  ls_trial [0] 0 half_square 1 10 [1] 1 1 = Ok (1, 0.5, [1], false) /\
  ~ (exists L g,
       backtracking_step_size [0] 0 None half_square 1 1 10 [1] 1
       = Ok (false, (1, L, 0.5, g))).
Proof.
  split.
  - rewrite half_square_trial by lra.
    rewrite Rleb_false by (unfold EPS; lra).
    repeat f_equal; lra.
  - intros (L & g & H). revert H. run_half_square_search.
    intros H. injection H as H _. lra.
Qed.

(** *** Exhausting the budget *)

(** C8: when each of the 100 trials fails the sufficient decrease
    condition (trial [k] runs with the estimate [L * 2^k], [L] being the
    estimate the loop starts from), the search does not fail: it emits
    the warning and returns the step size, objective value and gradient
    of the last trial, with the estimate as that trial left it, doubled
    once more to [L * 2^100]. *)
Theorem backtracking_exhausted_warns_and_returns
    (x : tensor) (f_t : R) (old_f_t : option R)
    (f_grad : tensor -> R * tensor) (certificate lipschitz_t max_step_size : R)
    (update_direction : tensor) (norm_update_direction : R) (L : R) :
  ls_initial_lipschitz f_t certificate norm_update_direction
                       old_f_t lipschitz_t = Ok L ->
  (forall k, (k < max_ls_iter)%nat ->
     exists s f g,
       ls_trial x f_t f_grad certificate max_step_size update_direction
                norm_update_direction (L * 2 ^ k) = Ok (s, f, g, false)) ->
  exists s f g,
    ls_trial x f_t f_grad certificate max_step_size update_direction
             norm_update_direction (L * 2 ^ 99) = Ok (s, f, g, false) /\
    backtracking_step_size x f_t old_f_t f_grad certificate lipschitz_t
                           max_step_size update_direction norm_update_direction
    = Ok (true, (s, L * 2 ^ 100, f, g)).
Proof.
  intros HL Hrej. unfold backtracking_step_size. rewrite HL.
  cbv beta iota delta [rbind]. change (pred max_ls_iter) with 99%nat.
  apply ls_for_exhausted. intros k Hk. apply Hrej.
  unfold max_ls_iter. lia.
Qed.

(** On [0.5 M x^2] with [M = 2^101], from [x = 1] along the direction
    [-1], every estimate up to [2^99] is rejected. *)
Lemma steep_square_rejects (k : nat) :
  (k < max_ls_iter)%nat ->
  exists s f g,
    ls_trial [1] (0.5 * 2 ^ 101) steep_square (2 ^ 101) 1 [-1] 1 (1 * 2 ^ k)
    = Ok (s, f, g, false).
Proof.
  intros Hk.
  assert (H0 : 0 < 2 ^ k) by (apply pow_lt; lra).
  assert (H99 : 2 ^ k <= 2 ^ 99).
  { apply Rle_pow; [lra | unfold max_ls_iter in Hk; lia]. }
  assert (H1 : 1 <= 2 ^ 99) by (apply pow_R1_Rle; lra).
  assert (HM : 2 ^ 101 = 4 * 2 ^ 99) by (simpl; ring).
  unfold ls_trial, steep_square. rewrite py_div_ok by lra.
  cbv beta iota delta [rbind].
  generalize dependent (2 ^ 101). generalize dependent (2 ^ 99).
  generalize dependent (2 ^ k). intros P HP B HB HB1 M HM.
  assert (Hs : 1 <= M / (1 * (1 * P))).
  { apply Rmult_le_reg_r with (r := P); [lra|].
    replace (M / (1 * (1 * P)) * P) with M by (field; lra). lra. }
  destruct (Rlt_dec (M / (1 * (1 * P))) 1) as [Hlt | _]; [lra|].
  simpl.
  rewrite Rleb_false; [eauto|].
  assert (HE : 0 < EPS < 1) by (unfold EPS; lra).
  clear Hs. lra.
Qed.

Lemma backtracking_exhausted_witness :
  exists s f g,
    ls_trial [1] (0.5 * 2 ^ 101) steep_square (2 ^ 101) 1 [-1] 1 (1 * 2 ^ 99)
    = Ok (s, f, g, false) /\
    backtracking_step_size [1] (0.5 * 2 ^ 101) None steep_square
                           (2 ^ 101) 1 1 [-1] 1
    = Ok (true, (s, 1 * 2 ^ 100, f, g)).
Proof.
  apply (backtracking_exhausted_warns_and_returns
           [1] (0.5 * 2 ^ 101) None steep_square (2 ^ 101) 1 1 [-1] 1 1).
  - reflexivity.
  - exact steep_square_rejects.
Defined.

(** ** Construction of [PGD] *)

(** C5 (as amended): constructing a [PGD] optimizer with a learning rate
    that is neither a float nor the ["sublinear"] tag raises the
    configuration error, and does so without creating an optimizer or
    any per-parameter state.  (A float is not tested for its sign.) *)
Theorem PGD_init_rejects_non_float_lr
    (params : list tensor) (prox : option (list (option prox_oracle)))
    (lr momentum : pyval) (normalization : string) :
  is_float lr = false ->
  py_eq_str lr "sublinear" = false ->
  PGD.init params prox lr momentum normalization = Raise ValueError.
Proof.
  intros Hf Hs. unfold PGD.init.
  destruct (PGD.wrap _ _ _) as [self_prox prox_el].
  rewrite Hf, Hs. reflexivity.
Qed.

Lemma PGD_init_rejects_non_float_lr_witness :
  PGD.init [[0]] None (PyInt (-1)) (PyFloat 0.9) "none" = Raise ValueError.
Proof.
  apply (PGD_init_rejects_non_float_lr [[0]] None (PyInt (-1)) (PyFloat 0.9)
                                       "none"); reflexivity.
Defined.

(** C5 (as stated) fails: [lr = -1.0] is a float, and the constructor
    returns an optimizer with that learning rate. *)
Lemma PGD_init_accepts_negative_lr :
  PGD.init [[0]] None (PyFloat (-1)) (PyFloat 0.9) "none"
  = Ok ({| PGD.prox := [identity_prox]; PGD.prox_el := None;
           PGD.lr := PyFloat (-1); PGD.momentum := PyFloat 0.9;
           PGD.normalization := "none" |},
        [mkParam [0] None None]).
Proof.
  unfold PGD.init. simpl.
  rewrite !Rleb_true by lra. reflexivity.
Qed.

(** ** The loop over the parameters *)

Section ForParamsFacts.

Context {S L : Type}.
Variable body : L -> gradient -> @M S L.

(** A parameter without gradient is passed over, whatever happens to
    the others. *)
Lemma for_params_frame (params : list (param S)) :
  forall (locals : L) (i : nat) (p : param S),
    nth_error params i = Some p ->
    grad p = None ->
    nth_error (fst (for_params body locals params)) i = Some p.
Proof.
  induction params as [|q rest IH]; intros locals i p Hi Hg.
  - destruct i; discriminate.
  - simpl. destruct i as [|i]; simpl in Hi.
    + injection Hi as ->. rewrite Hg.
      destruct (for_params body locals rest). reflexivity.
    + destruct (grad q) as [g|].
      * destruct (body locals g q) as [q' [locals' | e]].
        -- specialize (IH locals' i p Hi Hg).
           destruct (for_params body locals' rest). exact IH.
        -- exact Hi.
      * specialize (IH locals i p Hi Hg).
        destruct (for_params body locals rest). exact IH.
Qed.

End ForParamsFacts.

(** C9: in each of the four optimizers, a parameter whose gradient is
    absent when the loop of [step] runs (after the closure, when one is
    given) comes out of [step] with the same entries and the same state
    record, certificate included; this holds also when the step raises
    on another parameter. *)
Theorem step_skips_parameter_without_gradient :
  (forall self closure params i p,
      nth_error (fst (call_closure closure params)) i = Some p ->
      grad p = None ->
      nth_error (fst (PGD.step self closure params)) i = Some p) /\
  (forall self step_size closure params i p,
      nth_error (fst (call_closure closure params)) i = Some p ->
      grad p = None ->
      nth_error (fst (PGDMadry.step self step_size closure params)) i = Some p) /\
  (forall self closure params i p,
      nth_error (fst (call_closure closure params)) i = Some p ->
      grad p = None ->
      nth_error (fst (S3CM.step self closure params)) i = Some p) /\
  (forall self closure params i p,
      nth_error (fst (call_closure closure params)) i = Some p ->
      grad p = None ->
      nth_error (fst (FrankWolfe.step self closure params)) i = Some p).
Proof.
  repeat split; intros.
  - unfold PGD.step. destruct (call_closure closure params) as [ps loss].
    pose proof (for_params_frame (PGD.body self) ps O i p H H0) as F.
    destruct (for_params (PGD.body self) O ps). exact F.
  - unfold PGDMadry.step. destruct (call_closure closure params) as [ps loss].
    pose proof (for_params_frame (PGDMadry.body self) ps (O, step_size) i p H H0)
      as F.
    destruct (for_params (PGDMadry.body self) (O, step_size) ps). exact F.
  - unfold S3CM.step. destruct (call_closure closure params) as [ps loss].
    pose proof (for_params_frame (S3CM.body self) ps O i p H H0) as F.
    destruct (for_params (S3CM.body self) O ps). exact F.
  - unfold FrankWolfe.step. destruct (call_closure closure params) as [ps loss].
    pose proof (for_params_frame (FrankWolfe.body self) ps O i p H H0) as F.
    destruct (for_params (FrankWolfe.body self) O ps). exact F.
Qed.

Lemma step_skips_parameter_without_gradient_witness :
  nth_error
    (fst (PGD.step {| PGD.prox := [identity_prox]; PGD.prox_el := None;
                      PGD.lr := PyFloat 1; PGD.momentum := PyFloat 0;
                      PGD.normalization := "none" |}
                   None
                   [mkParam [1] None
                            (Some {| PGD.st_step := 3;
                                     PGD.st_grad_estimate := [2];
                                     PGD.st_certificate := Some 4 |});
                    mkParam [7] (Some (Dense [1])) None]))
    0
  = Some (mkParam [1] None
                  (Some {| PGD.st_step := 3; PGD.st_grad_estimate := [2];
                           PGD.st_certificate := Some 4 |})) /\
  nth_error
    (fst (PGDMadry.step {| PGDMadry.prox := []; PGDMadry.prox_el := None;
                           PGDMadry.lmo := []; PGDMadry.lmo_el := None;
                           PGDMadry.lr := PyFloat 1 |}
                        PyNone None
                        [mkParam [1] None
                                 (Some {| PGDMadry.st_step := 3;
                                          PGDMadry.st_certificate := Some 4 |});
                         mkParam [7] (Some (Dense [1])) None]))
    0
  = Some (mkParam [1] None
                  (Some {| PGDMadry.st_step := 3;
                           PGDMadry.st_certificate := Some 4 |})) /\
  nth_error
    (fst (S3CM.step {| S3CM.prox1 := []; S3CM.prox1_ := None;
                       S3CM.prox2 := []; S3CM.prox2_ := None;
                       S3CM.lr := 1; S3CM.normalization := "none" |}
                    None
                    [mkParam [1] None
                             (Some {| S3CM.st_step := 0;
                                      S3CM.st_iterate_1 := [2];
                                      S3CM.st_iterate_2 := Some [1];
                                      S3CM.st_dual := Some [0] |});
                     mkParam [7] (Some (Dense [1])) None]))
    0
  = Some (mkParam [1] None
                  (Some {| S3CM.st_step := 0; S3CM.st_iterate_1 := [2];
                           S3CM.st_iterate_2 := Some [1];
                           S3CM.st_dual := Some [0] |})) /\
  nth_error
    (fst (FrankWolfe.step {| FrankWolfe.lmo := []; FrankWolfe.oracle := None;
                             FrankWolfe.lr := PyFloat 1;
                             FrankWolfe.momentum := PyFloat 0;
                             FrankWolfe.weight_decay := PyFloat 0;
                             FrankWolfe.normalization := "none" |}
                          None
                          [mkParam [1] None
                                   (Some {| FrankWolfe.st_step := 3;
                                            FrankWolfe.st_grad_estimate := [2];
                                            FrankWolfe.st_certificate := Some 4 |});
                           mkParam [7] (Some (Dense [1])) None]))
    0
  = Some (mkParam [1] None
                  (Some {| FrankWolfe.st_step := 3;
                           FrankWolfe.st_grad_estimate := [2];
                           FrankWolfe.st_certificate := Some 4 |})).
Proof.
  destruct step_skips_parameter_without_gradient as (H1 & H2 & H3 & H4).
  split; [apply H1; reflexivity|].
  split; [apply H2; reflexivity|].
  split; [apply H3; reflexivity | apply H4; reflexivity].
Defined.

(** ** The [step_size] argument of [PGDMadry.step] *)

Lemma PGDMadry_loop_ignores_step_size (self : PGDMadry.optimizer)
    (params : list (param PGDMadry.State)) :
  forall (idx : nat) (s1 s2 : pyval) (loss : option R),
    fst (for_params (PGDMadry.body self) (idx, s1) params)
    = fst (for_params (PGDMadry.body self) (idx, s2) params) /\
    (let? _ := snd (for_params (PGDMadry.body self) (idx, s1) params) in Ok loss)
    = (let? _ := snd (for_params (PGDMadry.body self) (idx, s2) params) in Ok loss).
Proof.
  induction params as [|p rest IH]; intros idx s1 s2 loss.
  - split; reflexivity.
  - simpl. destruct (grad p) as [g|].
    + change (PGDMadry.body self (idx, s2) g p)
        with (PGDMadry.body self (idx, s1) g p).
      split; reflexivity.
    + destruct (IH idx s1 s2 loss) as [Hf Hr].
      destruct (for_params (PGDMadry.body self) (idx, s1) rest) as [r1 o1].
      destruct (for_params (PGDMadry.body self) (idx, s2) rest) as [r2 o2].
      simpl in *. subst r2. split; [reflexivity | exact Hr].
Qed.

(** C10: the value passed for [step_size] (a number, a string or
    [None]) has no effect on [PGDMadry.step]: the parameters, their
    states and certificates, and the value returned or the exception
    raised are the same for any two values. *)
Theorem PGDMadry_step_ignores_step_size
    (self : PGDMadry.optimizer) (s1 s2 : pyval)
    (closure : closure_t PGDMadry.State)
    (params : list (param PGDMadry.State)) :
  PGDMadry.step self s1 closure params = PGDMadry.step self s2 closure params.
Proof.
  unfold PGDMadry.step. destruct (call_closure closure params) as [ps loss].
  destruct (PGDMadry_loop_ignores_step_size self ps O s1 s2 loss) as [Hf Hr].
  destruct (for_params (PGDMadry.body self) (O, s1) ps) as [r1 o1].
  destruct (for_params (PGDMadry.body self) (O, s2) ps) as [r2 o2].
  simpl in *. subst r2. rewrite Hr. reflexivity.
Qed.

(** ** The moving average of [FrankWolfe] *)

(** One call of [step] on a single scalar parameter: the estimate moves
    by the exponential moving average. *)
Lemma FrankWolfe_scalar_step (self : FrankWolfe.optimizer) (o : lmo_oracle)
    (m x g e : R) (n : nat) (c0 : option R) (st : option FrankWolfe.State) :
  FrankWolfe.momentum self = PyFloat m ->
  FrankWolfe.weight_decay self = PyFloat 0 ->
  FrankWolfe.lmo self = [late_lmo] ->
  FrankWolfe.oracle self = Some o ->
  (forall u y, List.length u = List.length y ->
               List.length (fst (o u y)) = List.length y) ->
  is_float (FrankWolfe.lr self) || py_eq_str (FrankWolfe.lr self) "sublinear" = true ->
  (st = None /\ n = O /\ e = 0) \/
  st = Some {| FrankWolfe.st_step := n; FrankWolfe.st_grad_estimate := [e];
               FrankWolfe.st_certificate := c0 |} ->
  exists x' c,
    FrankWolfe.step self None [mkParam [x] (Some (Dense [g])) st]
    = ([mkParam [x'] (Some (Dense [g]))
          (Some {| FrankWolfe.st_step := S n;
                   FrankWolfe.st_grad_estimate := [e + (1 - m) * (g - e)];
                   FrankWolfe.st_certificate := Some c |})],
       Ok None).
Proof.
  intros Hm Hwd Hlmo Ho Hshape Hlr Hst.
  assert (Hd : forall u,
             o [u] [x] = ([hd 0 (fst (o [u] [x]))], snd (o [u] [x]))).
  { intros u. specialize (Hshape [u] [x] eq_refl).
    destruct (o [u] [x]) as [d mx].
    simpl in Hshape. destruct d as [|d0 [|d1 d]]; try discriminate.
    reflexivity. }
  unfold FrankWolfe.step, call_closure. simpl for_params.
  unfold FrankWolfe.body, FrankWolfe.call, mbind, get_data, get_state,
    set_state, copy_, lift, ret, raise.
  rewrite Hm, Hwd, Hlmo, Ho.
  destruct Hst as [(-> & -> & ->) | ->];
    destruct (FrankWolfe.lr self) as [r|z|str|]; simpl in Hlr; try discriminate;
    simpl; try rewrite Hlr; simpl; rewrite Hd;
    unfold tadd, tsub, tmul, tscale, tneg; simpl;
    eexists _, _; repeat f_equal; ring.
Qed.

Lemma FrankWolfe_init_inv (params : list tensor) (lmo : lmo_oracle)
    (lr momentum weight_decay : pyval) (normalization : string)
    (self : FrankWolfe.optimizer) (ps : list (param FrankWolfe.State)) :
  FrankWolfe.init params [lmo] lr momentum weight_decay normalization
  = Ok (self, ps) ->
  FrankWolfe.lmo self = [late_lmo] /\ FrankWolfe.oracle self = Some lmo /\
  FrankWolfe.lr self = lr /\ FrankWolfe.momentum self = momentum /\
  FrankWolfe.weight_decay self = weight_decay /\ ps = register params.
Proof.
  unfold FrankWolfe.init. simpl FrankWolfe.wrap. cbv beta iota.
  destruct (match lr with PyFloat _ => _ | _ => _ end); [discriminate|].
  destruct (match momentum with PyFloat _ => _ | _ => _ end); [discriminate|].
  destruct (as_number weight_decay) as [wd|]; [|discriminate].
  cbv beta iota delta [rbind].
  destruct (negb (Rleb 0 wd)); [discriminate|].
  destruct (negb _); [discriminate|].
  intros H. injection H as <- <-. simpl. repeat split.
Qed.

(** C7: with momentum [0.9] and weight decay [0], whatever the
    shape-preserving oracle, the starting point, the learning rate and
    the normalization, the gradients [1], [2], [3] in three successive
    steps leave [grad_estimate] at [0.1], [0.29] and [0.561]. *)
Theorem FrankWolfe_ema_trace
    (lmo : lmo_oracle) (x : R) (lr : pyval) (normalization : string)
    (self : FrankWolfe.optimizer) (params : list (param FrankWolfe.State)) :
  (forall u y, List.length u = List.length y ->
               List.length (fst (lmo u y)) = List.length y) ->
  is_float lr || py_eq_str lr "sublinear" = true ->
  FrankWolfe.init [[x]] [lmo] lr (PyFloat 0.9) (PyFloat 0) normalization
  = Ok (self, params) ->
  let step g ps :=
    fst (FrankWolfe.step self None (with_grads [Some (Dense [g])] ps)) in
  let grad_estimate ps :=
    map (fun p => option_map FrankWolfe.st_grad_estimate (state p)) ps in
  let params1 := step 1 params in
  let params2 := step 2 params1 in
  let params3 := step 3 params2 in
  grad_estimate params1 = [Some [0.1]] /\
  grad_estimate params2 = [Some [0.29]] /\
  grad_estimate params3 = [Some [0.561]].
Proof.
  intros Hshape Hlr Hinit.
  destruct (FrankWolfe_init_inv _ _ _ _ _ _ _ _ Hinit)
    as (Hlmo & Ho & Hl & Hm & Hwd & ->).
  rewrite <- Hl in Hlr.
  intros step grad_estimate params1 params2 params3.
  destruct (FrankWolfe_scalar_step self lmo 0.9 x 1 0 O None None
              Hm Hwd Hlmo Ho Hshape Hlr) as (x1 & c1 & E1); [now left|].
  assert (P1 : params1 = fst (FrankWolfe.step self None
                  [mkParam [x] (Some (Dense [1])) None])) by reflexivity.
  rewrite E1 in P1. simpl in P1.
  destruct (FrankWolfe_scalar_step self lmo 0.9 x1 2 (0 + (1 - 0.9) * (1 - 0)) 1%nat
              (Some c1) _
              Hm Hwd Hlmo Ho Hshape Hlr (or_intror eq_refl))
    as (x2 & c2 & E2).
  assert (P2 : params2 = fst (FrankWolfe.step self None
                  (with_grads [Some (Dense [2])] params1))) by reflexivity.
  rewrite P1 in P2. simpl with_grads in P2. unfold set_grad in P2.
  simpl in P2. rewrite E2 in P2. simpl in P2.
  destruct (FrankWolfe_scalar_step self lmo 0.9 x2 3
              (0 + (1 - 0.9) * (1 - 0) + (1 - 0.9) * (2 - (0 + (1 - 0.9) * (1 - 0))))
              2%nat (Some c2) _
              Hm Hwd Hlmo Ho Hshape Hlr (or_intror eq_refl))
    as (x3 & c3 & E3).
  assert (P3 : params3 = fst (FrankWolfe.step self None
                  (with_grads [Some (Dense [3])] params2))) by reflexivity.
  rewrite P2 in P3. simpl with_grads in P3. unfold set_grad in P3.
  simpl in P3. rewrite E3 in P3. simpl in P3.
  rewrite P1, P2, P3. unfold grad_estimate. simpl.
  repeat split; repeat f_equal; lra.
Qed.

Lemma linf_ball_lmo_shape (alpha : R) (u y : tensor) :
  List.length u = List.length y ->
  List.length (fst (linf_ball_lmo alpha u y)) = List.length y.
Proof.
  unfold linf_ball_lmo, tsub, tscale, tsign. simpl. rewrite !map_map.
  revert y. induction u as [|a u IH]; intros [|b y] H; simpl in *;
    try discriminate; try reflexivity.
  f_equal. apply IH. now injection H.
Qed.

Lemma FrankWolfe_ema_trace_witness :
  exists self,
    FrankWolfe.init [[0]] [linf_ball_lmo 1] (PyFloat 0.1) (PyFloat 0.9)
                    (PyFloat 0) "none"
    = Ok (self, register [[0]]) /\
    let step g ps :=
      fst (FrankWolfe.step self None (with_grads [Some (Dense [g])] ps)) in
    let grad_estimate ps :=
      map (fun p => option_map FrankWolfe.st_grad_estimate (state p)) ps in
    grad_estimate (step 1 (register [[0]])) = [Some [0.1]] /\
    grad_estimate (step 2 (step 1 (register [[0]]))) = [Some [0.29]] /\
    grad_estimate (step 3 (step 2 (step 1 (register [[0]])))) = [Some [0.561]].
Proof.
  assert (Hinit :
    FrankWolfe.init [[0]] [linf_ball_lmo 1] (PyFloat 0.1) (PyFloat 0.9)
                    (PyFloat 0) "none"
    = Ok ({| FrankWolfe.lmo := [late_lmo];
             FrankWolfe.oracle := Some (linf_ball_lmo 1);
             FrankWolfe.lr := PyFloat 0.1; FrankWolfe.momentum := PyFloat 0.9;
             FrankWolfe.weight_decay := PyFloat 0;
             FrankWolfe.normalization := "none" |}, register [[0]])).
  { unfold FrankWolfe.init. simpl.
    rewrite Rltb_true by lra. rewrite !Rleb_true by lra. reflexivity. }
  eexists. split; [exact Hinit|].
  exact (FrankWolfe_ema_trace (linf_ball_lmo 1) 0 (PyFloat 0.1) "none" _ _
           (linf_ball_lmo_shape 1) eq_refl Hinit).
Defined.

(** ** Tensor algebra *)

Lemma tmap2_length (f : R -> R -> R) (a : tensor) : forall b : tensor,
  List.length a = List.length b -> List.length (tmap2 f a b) = List.length a.
Proof.
  induction a as [|x a IH]; intros [|y b] H; simpl in *;
    try discriminate; try reflexivity.
  f_equal. apply IH. now injection H.
Qed.

Lemma tadd_scaled_zeros (c : R) (a : tensor) : forall z : tensor,
  List.length a = List.length z ->
  tadd a (tscale c (zeros_like z)) = a.
Proof.
  unfold tadd, tscale, zeros_like.
  induction a as [|x a IH]; intros [|y z] H; simpl in *;
    try discriminate; try reflexivity.
  f_equal; [ring | apply IH; now injection H].
Qed.

Lemma tadd_zeros_r (a : tensor) : forall z : tensor,
  List.length a = List.length z ->
  tadd a (zeros_like z) = a.
Proof.
  unfold tadd, zeros_like.
  induction a as [|x a IH]; intros [|y z] H; simpl in *;
    try discriminate; try reflexivity.
  f_equal; [ring | apply IH; now injection H].
Qed.

Lemma tdiv_tsub_self (c : R) (a : tensor) : forall z : tensor,
  List.length a = List.length z ->
  tdiv (tsub a a) c = zeros_like z.
Proof.
  unfold tdiv, tsub, zeros_like.
  induction a as [|x a IH]; intros [|y z] H; simpl in *;
    try discriminate; try reflexivity.
  f_equal; [unfold Rdiv; ring | apply IH; now injection H].
Qed.

Lemma tadd_zeros_zeros (z : tensor) :
  tadd (zeros_like z) (zeros_like z) = zeros_like z.
Proof.
  unfold tadd, zeros_like.
  induction z as [|y z IH]; simpl; [reflexivity|].
  f_equal; [ring | exact IH].
Qed.

Lemma tsub_tscale_length (c : R) (a g : tensor) :
  List.length g = List.length a ->
  List.length (tsub a (tscale c g)) = List.length a.
Proof.
  intros H. unfold tsub, tscale. apply tmap2_length.
  rewrite length_map. symmetry. exact H.
Qed.

(** ** [S3CM] with identity operators *)

Section S3CMIdentity.

Variables (self : S3CM.optimizer) (x g : tensor).
Hypothesis Hprox1 : S3CM.prox1 self = [late_prox].
Hypothesis Hprox2 : S3CM.prox2 self = [late_prox].
Hypothesis Hprox1_ : S3CM.prox1_ self = Some (S3CM.default None).
Hypothesis Hprox2_ : S3CM.prox2_ self = Some (S3CM.default None).
Hypothesis Hnorm : S3CM.normalization self = "none"%string.
Hypothesis Hg : List.length g = List.length x.

(** The state after a step that found [y] in [iterate_1]. *)
Lemma S3CM_identity_step (y : tensor) (st : option S3CM.State) (p : tensor) :
  List.length y = List.length x ->
  (st = None /\ p = y) \/
  (exists y2,
      st = Some {| S3CM.st_step := O; S3CM.st_iterate_1 := y;
                   S3CM.st_iterate_2 := Some y2;
                   S3CM.st_dual := Some (zeros_like x) |}) ->
  S3CM.step self None [mkParam p (Some (Dense g)) st]
  = ([mkParam y (Some (Dense g))
        (Some {| S3CM.st_step := O;
                 S3CM.st_iterate_1 := tsub y (tscale (S3CM.lr self) g);
                 S3CM.st_iterate_2 := Some y;
                 S3CM.st_dual := Some (zeros_like x) |})],
     Ok None).
Proof.
  intros Hy Hst.
  unfold S3CM.step, call_closure. simpl for_params.
  unfold S3CM.body, S3CM.call, S3CM.lookup, mbind, get_data, get_state,
    set_state, copy_, lift, ret, raise.
  rewrite Hprox1, Hprox2, Hprox1_, Hprox2_, Hnorm.
  destruct Hst as [[-> ->] | [y2 ->]]; simpl;
    change (normalize_gradient g "none") with g;
    rewrite ?(tdiv_tsub_self _ y x Hy), (tadd_scaled_zeros _ y x Hy),
      (tdiv_tsub_self _ y x Hy), tadd_zeros_zeros, (tadd_zeros_r g x Hg);
    reflexivity.
Qed.

(** The parameters after [n] calls of [step] under the gradient [g]. *)
Lemma S3CM_identity_steps (n : nat) :
  exists y,
    List.length y = List.length x /\
    steps (S3CM.step self None) (S n) [mkParam x (Some (Dense g)) None]
    = [mkParam y (Some (Dense g))
         (Some {| S3CM.st_step := O;
                  S3CM.st_iterate_1 := tsub y (tscale (S3CM.lr self) g);
                  S3CM.st_iterate_2 := Some y;
                  S3CM.st_dual := Some (zeros_like x) |})] /\
    (n = O -> y = x).
Proof.
  induction n as [|n (y & Hy & E & _)].
  - exists x. split; [reflexivity|]. split; [|reflexivity].
    simpl. rewrite (S3CM_identity_step x None x); auto.
  - assert (Hy' : List.length (tsub y (tscale (S3CM.lr self) g))
                  = List.length x).
    { rewrite tsub_tscale_length; [exact Hy | now rewrite Hy]. }
    exists (tsub y (tscale (S3CM.lr self) g)).
    split; [exact Hy'|]. split; [|discriminate].
    change (steps (S3CM.step self None) (S (S n)) ?ps)
      with (fst (S3CM.step self None (steps (S3CM.step self None) (S n) ps))).
    rewrite E.
    rewrite (S3CM_identity_step (tsub y (tscale (S3CM.lr self) g)) _ y);
      [reflexivity | exact Hy' | eauto].
Qed.

End S3CMIdentity.

Lemma S3CM_init_identity (x : tensor) (lr : R) :
  S3CM.init [x] None None (PyFloat lr) "none"
  = Ok ({| S3CM.prox1 := [late_prox];
           S3CM.prox1_ := Some (S3CM.default None);
           S3CM.prox2 := [late_prox];
           S3CM.prox2_ := Some (S3CM.default None);
           S3CM.lr := lr; S3CM.normalization := "none" |},
        [mkParam x None None]).
Proof. reflexivity. Qed.

(** C3 (as amended): for [S3CM] with both operators the identity, the
    normalization ["none"], a nonzero learning rate and a constant
    gradient [g], the first call of [step] leaves the parameter at its
    initial value (it is [iterate_1] that moves to [x - lr g]), and each
    later call changes the parameter from [x_t] to [x_t - lr g].  (With
    [lr = 0] the code divides zero by zero when it forms [dual].) *)
Theorem S3CM_identity_gradient_descent_after_first_step
    (x g : tensor) (lr : R)
    (self : S3CM.optimizer) (params : list (param S3CM.State)) :
  List.length g = List.length x ->
  lr <> 0 ->
  S3CM.init [x] None None (PyFloat lr) "none" = Ok (self, params) ->
  let after n :=
    map data (steps (S3CM.step self None) n
                    (with_grads [Some (Dense g)] params)) in
  after 1%nat = [x] /\
  forall n, (1 <= n)%nat ->
    exists x_t, after n = [x_t] /\ after (S n) = [tsub x_t (tscale lr g)].
Proof.
  intros Hg _ Hinit. rewrite S3CM_init_identity in Hinit.
  injection Hinit as <- <-. intros after. subst after.
  change (with_grads [Some (Dense g)] [mkParam x None None])
    with [@mkParam S3CM.State x (Some (Dense g)) None].
  match goal with |- context [S3CM.step ?s None] => set (self := s) end.
  change lr with (S3CM.lr self).
  split.
  - destruct (S3CM_identity_steps self x g eq_refl eq_refl eq_refl eq_refl
                eq_refl Hg O) as (y & _ & E & Hy).
    rewrite E, (Hy eq_refl). reflexivity.
  - intros [|n] Hn; [lia|].
    destruct (S3CM_identity_steps self x g eq_refl eq_refl eq_refl eq_refl
                eq_refl Hg n) as (y & Hy & E & _).
    exists y. split; [rewrite E; reflexivity|].
    change (steps (S3CM.step self None) (S (S n)) ?ps)
      with (fst (S3CM.step self None (steps (S3CM.step self None) (S n) ps))).
    rewrite E.
    rewrite (S3CM_identity_step self x g eq_refl eq_refl eq_refl eq_refl
               eq_refl Hg (tsub y (tscale (S3CM.lr self) g)) _ y).
    + reflexivity.
    + rewrite tsub_tscale_length; [exact Hy | now rewrite Hy].
    + right. eauto.
Qed.

Lemma S3CM_identity_gradient_descent_after_first_step_witness :
  let after n :=
    map data
        (steps (S3CM.step
                  {| S3CM.prox1 := [late_prox];
                     S3CM.prox1_ := Some (S3CM.default None);
                     S3CM.prox2 := [late_prox];
                     S3CM.prox2_ := Some (S3CM.default None);
                     S3CM.lr := 0.1; S3CM.normalization := "none" |} None) n
               (with_grads [Some (Dense [1])] [mkParam [1] None None])) in
  after 1%nat = [[1]] /\
  forall n, (1 <= n)%nat ->
    exists x_t, after n = [x_t] /\ after (S n) = [tsub x_t (tscale 0.1 [1])].
Proof.
  apply (S3CM_identity_gradient_descent_after_first_step [1] [1] 0.1).
  - reflexivity.
  - lra.
  - apply S3CM_init_identity.
Defined.

(** C3 (as stated) fails on the first call: from [x = 1] with [g = 1]
    and [lr = 0.1], the parameter after one call of [step] is still [1],
    at distance [0.1] from the gradient descent iterate [0.9]. *)
Lemma S3CM_identity_first_step_keeps_parameter :
  exists self,
    S3CM.init [[1]] None None (PyFloat 0.1) "none"
    = Ok (self, [mkParam [1] None None]) /\
    map data (fst (S3CM.step self None
                     (with_grads [Some (Dense [1])] [mkParam [1] None None])))
    = [[1]] /\
    tsub [1] (tscale 0.1 [1]) = [1 - 0.1 * 1] /\
    / 1000000 < Rabs (1 - (1 - 0.1 * 1)).
Proof.
  eexists. split; [apply S3CM_init_identity|].
  split; [|split; [reflexivity|]].
  - change (with_grads [Some (Dense [1])] [mkParam [1] None None])
      with [@mkParam S3CM.State [1] (Some (Dense [1])) None].
    match goal with |- context [S3CM.step ?s None] => set (self := s) end.
    rewrite (S3CM_identity_step self [1] [1] eq_refl eq_refl eq_refl eq_refl
               eq_refl eq_refl [1] None [1]); auto.
  - rewrite Rabs_pos_eq; lra.
Qed.

(** ** The update of [PGD] *)

(** What a completed update of one parameter did. *)
Lemma PGD_body_ok (self : PGD.optimizer) (idx : nat) (g : gradient)
    (p p' : param PGD.State) (idx' : nat) :
  PGD.body self idx g p = (p', Ok idx') ->
  exists (f : prox_closure) (step_size : R) (st' : PGD.State),
    getitem (PGD.prox self) idx = Ok f /\
    as_number (PGD.step_size_of self (PGD.st_step st')) = Ok step_size /\
    state p' = Some st' /\
    PGD.call self f
             (tsub (data p)
                   (tscale step_size
                           (normalize_gradient (PGD.st_grad_estimate st')
                                               (PGD.normalization self))))
             1
    = Ok (data p') /\
    PGD.st_certificate st'
    = Some (tnorm (tdiv (tsub (data p) (data p')) step_size)).
Proof.
  unfold PGD.body. destruct g as [grad | grad]; simpl; [|discriminate].
  unfold mbind, get_data, get_state, set_state, copy_, lift, ret. simpl.
  destruct (state p) as [s|]; simpl;
    (destruct (as_number (PGD.momentum self)) as [m|]; [|discriminate]);
    (destruct (getitem (PGD.prox self) idx) as [f|]; [|discriminate]);
    (destruct (as_number (PGD.step_size_of self _)) as [step_size|] eqn:Es;
       [|discriminate]);
    (destruct (PGD.call self f _ 1) as [new_p|] eqn:Ec; [|discriminate]);
    intros H; injection H as <- <-; simpl;
    exists f, step_size; eexists; repeat split; eauto.
Qed.

(** The functions in [self.prox] ignore their second argument and call
    the oracle without a step size. *)
Lemma PGD_call_spec (self : PGD.optimizer) (f : prox_closure)
    (x y : tensor) (s : R) :
  PGD.call self f x s = Ok y ->
  (forall s', PGD.call self f x s' = Ok y) /\
  (f = identity_prox /\ y = x \/
   exists prox_el, f = late_prox /\ PGD.prox_el self = Some prox_el /\
                   y = prox_el x None).
Proof.
  unfold PGD.call. destruct f.
  - destruct (PGD.prox_el self) as [o|]; [|discriminate].
    intros H. injection H as <-. split; [reflexivity|]. right. eauto.
  - intros H. injection H as <-. split; [reflexivity|]. now left.
Qed.

(** C1 (as amended): in a completed update of a parameter, with
    [step_size] the constant [lr] or [1 / (step + 1)] under the
    sublinear schedule and [g] the normalised gradient estimate, the
    committed candidate is what the function stored in [self.prox] at
    the running index returns on [parameter - step_size * g]: that
    function is passed the constant [1.0], not [step_size], discards it,
    and calls the oracle on the point alone (or returns the point when
    no oracle was given).  The certificate is computed with [step_size]. *)
Theorem PGD_candidate_is_prox_of_point_alone
    (self : PGD.optimizer) (idx : nat) (g : gradient)
    (p p' : param PGD.State) (idx' : nat) :
  PGD.body self idx g p = (p', Ok idx') ->
  exists (f : prox_closure) (step_size : R) (st' : PGD.State),
    state p' = Some st' /\
    getitem (PGD.prox self) idx = Ok f /\
    (if py_eq_str (PGD.lr self) "sublinear"
     then step_size = 1 / (INR (PGD.st_step st') + 1)
     else as_number (PGD.lr self) = Ok step_size) /\
    let point :=
      tsub (data p)
           (tscale step_size
                   (normalize_gradient (PGD.st_grad_estimate st')
                                       (PGD.normalization self))) in
    (forall s, PGD.call self f point s = Ok (data p')) /\
    (f = identity_prox /\ data p' = point \/
     exists prox_el, f = late_prox /\ PGD.prox_el self = Some prox_el /\
                     data p' = prox_el point None) /\
    PGD.st_certificate st'
    = Some (tnorm (tdiv (tsub (data p) (data p')) step_size)).
Proof.
  intros H.
  destruct (PGD_body_ok _ _ _ _ _ _ H) as (f & s & st' & Hf & Hs & Hst & Hc & Hcert).
  exists f, s, st'. split; [exact Hst|]. split; [exact Hf|]. split.
  - unfold PGD.step_size_of in Hs.
    destruct (py_eq_str (PGD.lr self) "sublinear").
    + simpl in Hs. now injection Hs as <-.
    + exact Hs.
  - cbv zeta. destruct (PGD_call_spec _ _ _ _ _ Hc) as [Hall Hor].
    split; [exact Hall|]. split; [exact Hor | exact Hcert].
Qed.

(** A parameter [2] with gradient [1], no momentum, [lr = 1.0] and the
    ridge operator. *)
Lemma PGD_ridge_update :
  PGD.body {| PGD.prox := [late_prox]; PGD.prox_el := Some ridge_prox;
              PGD.lr := PyFloat 1; PGD.momentum := PyFloat 0;
              PGD.normalization := "none" |}
           O (Dense [1]) (mkParam [2] (Some (Dense [1])) None)
  = (mkParam [2 - 1 * (0 + (1 - 0) * (1 - 0))] (Some (Dense [1]))
       (Some {| PGD.st_step := 1;
                PGD.st_grad_estimate := [0 + (1 - 0) * (1 - 0)];
                PGD.st_certificate :=
                  Some (tnorm (tdiv (tsub [2]
                                       [2 - 1 * (0 + (1 - 0) * (1 - 0))]) 1)) |}),
     Ok 1%nat).
Proof. reflexivity. Qed.

Lemma PGD_candidate_is_prox_of_point_alone_witness :
  exists (f : prox_closure) (step_size : R) (st' : PGD.State),
    Some {| PGD.st_step := 1;
            PGD.st_grad_estimate := [0 + (1 - 0) * (1 - 0)];
            PGD.st_certificate :=
              Some (tnorm (tdiv (tsub [2]
                                   [2 - 1 * (0 + (1 - 0) * (1 - 0))]) 1)) |}
    = Some st' /\
    Ok late_prox = Ok f /\
    Ok 1 = Ok step_size /\
    let point :=
      tsub [2] (tscale step_size
                       (normalize_gradient (PGD.st_grad_estimate st') "none")) in
    (forall s,
        PGD.call {| PGD.prox := [late_prox]; PGD.prox_el := Some ridge_prox;
                    PGD.lr := PyFloat 1; PGD.momentum := PyFloat 0;
                    PGD.normalization := "none" |} f point s
        = Ok [2 - 1 * (0 + (1 - 0) * (1 - 0))]) /\
    (f = identity_prox /\ [2 - 1 * (0 + (1 - 0) * (1 - 0))] = point \/
     exists prox_el, f = late_prox /\ Some ridge_prox = Some prox_el /\
                     [2 - 1 * (0 + (1 - 0) * (1 - 0))] = prox_el point None) /\
    PGD.st_certificate st'
    = Some (tnorm (tdiv (tsub [2] [2 - 1 * (0 + (1 - 0) * (1 - 0))])
                        step_size)).
Proof.
  exact (PGD_candidate_is_prox_of_point_alone _ _ _ _ _ _ PGD_ridge_update).
Defined.

(** C1 (as stated) fails: with the ridge operator, [lr = 1.0], no
    momentum, the parameter [2] and the gradient [1], the point is
    [2 - 1 * 1 = 1] and the step commits [1], the operator's value
    without a step size; with the step size [1] the operator gives
    [1 / 2]. *)
Lemma PGD_prox_not_given_step_size :
  exists self,
    PGD.init [[2]] (Some [Some ridge_prox]) (PyFloat 1) (PyFloat 0) "none"
    = Ok (self, [mkParam [2] None None]) /\
    map data (fst (PGD.step self None
                     (with_grads [Some (Dense [1])] [mkParam [2] None None])))
    = [[2 - 1 * (0 + (1 - 0) * (1 - 0))]] /\
    ridge_prox (tsub [2] (tscale 1 (normalize_gradient
                                      [0 + (1 - 0) * (1 - 0)] "none")))
               (Some 1)
    = [(2 - 1 * (0 + (1 - 0) * (1 - 0))) / (1 + 1)] /\
    2 - 1 * (0 + (1 - 0) * (1 - 0))
    <> (2 - 1 * (0 + (1 - 0) * (1 - 0))) / (1 + 1).
Proof.
  eexists. split.
  - unfold PGD.init. simpl. rewrite !Rleb_true by lra. reflexivity.
  - split; [reflexivity|]. split; [reflexivity|]. lra.
Qed.

(** ** The certificate of [PGD] *)

Lemma tsum_squares_nonneg (a : tensor) :
  0 <= tsum (map (fun x => x * x) a).
Proof.
  induction a as [|x a IH]; simpl; [lra|].
  pose proof (Rle_0_sqr x) as Hx. unfold Rsqr in Hx. lra.
Qed.

Lemma tnorm_nonneg (a : tensor) : 0 <= tnorm a.
Proof. apply sqrt_pos. Qed.

Lemma tsum_squares_zero (a : tensor) :
  tsum (map (fun x => x * x) a) = 0 <-> Forall (fun x => x = 0) a.
Proof.
  induction a as [|x a IH]; simpl.
  - split; [constructor | reflexivity].
  - pose proof (tsum_squares_nonneg a) as Ha.
    pose proof (Rle_0_sqr x) as Hx. unfold Rsqr in Hx. split.
    + intros H. constructor; [nra | apply IH; lra].
    + intros H. inversion_clear H as [|? ? H0 H1]. subst x.
      apply IH in H1. lra.
Qed.

Lemma tnorm_zero (a : tensor) :
  tnorm a = 0 <-> Forall (fun x => x = 0) a.
Proof.
  unfold tnorm. rewrite <- tsum_squares_zero. split.
  - intros H. apply sqrt_eq_0; [apply tsum_squares_nonneg | exact H].
  - intros ->. apply sqrt_0.
Qed.

(** The scaled difference of two tensors of one shape vanishes exactly
    when they are equal. *)
Lemma scaled_difference_zero (s : R) (a : tensor) : forall b : tensor,
  s <> 0 ->
  List.length b = List.length a ->
  (Forall (fun x => x = 0) (tdiv (tsub a b) s) <-> b = a).
Proof.
  unfold tdiv, tsub.
  induction a as [|x a IH]; intros [|y b] Hs Hl; simpl in *;
    try discriminate.
  - split; [reflexivity | constructor].
  - injection Hl as Hl. specialize (IH b Hs Hl). split.
    + intros H. inversion_clear H as [|? ? H0 H1].
      apply IH in H1. subst b. f_equal.
      apply (Rmult_eq_compat_r s) in H0.
      unfold Rdiv in H0. rewrite Rmult_assoc, Rinv_l in H0 by exact Hs. lra.
    + intros H. injection H as -> ->. constructor.
      * unfold Rdiv. ring.
      * now apply IH.
Qed.

(** C6: after a completed update with a positive step size in which the
    oracle returns a point of the parameter's shape, the stored
    certificate is [>= 0], and it is [0] exactly when the committed
    candidate equals the parameter the update started from. *)
Theorem PGD_certificate_zero_iff_fixed_point
    (self : PGD.optimizer) (idx : nat) (g : gradient)
    (p p' : param PGD.State) (idx' : nat) :
  PGD.body self idx g p = (p', Ok idx') ->
  (forall step s, as_number (PGD.step_size_of self step) = Ok s -> 0 < s) ->
  List.length (data p') = List.length (data p) ->
  exists (st' : PGD.State) (c : R),
    state p' = Some st' /\
    PGD.st_certificate st' = Some c /\
    0 <= c /\
    (c = 0 <-> data p' = data p).
Proof.
  intros H Hpos Hlen.
  destruct (PGD_body_ok _ _ _ _ _ _ H)
    as (f & s & st' & _ & Hs & Hst & _ & Hcert).
  apply Hpos in Hs.
  exists st', (tnorm (tdiv (tsub (data p) (data p')) s)).
  split; [exact Hst|]. split; [exact Hcert|]. split; [apply tnorm_nonneg|].
  rewrite tnorm_zero. apply scaled_difference_zero; [lra | exact Hlen].
Qed.

Lemma PGD_certificate_zero_iff_fixed_point_witness :
  exists (st' : PGD.State) (c : R),
    Some {| PGD.st_step := 1;
            PGD.st_grad_estimate := [0 + (1 - 0) * (1 - 0)];
            PGD.st_certificate :=
              Some (tnorm (tdiv (tsub [2]
                                   [2 - 1 * (0 + (1 - 0) * (1 - 0))]) 1)) |}
    = Some st' /\
    PGD.st_certificate st' = Some c /\
    0 <= c /\
    (c = 0 <-> [2 - 1 * (0 + (1 - 0) * (1 - 0))] = [2]).
Proof.
  apply (PGD_certificate_zero_iff_fixed_point _ _ _ _ _ _ PGD_ridge_update).
  - intros step s H. simpl in H. injection H as <-. lra.
  - reflexivity.
Defined.

(** ** Which oracle a step calls *)

Lemma sign_pos (v : R) : 0 < v -> sign v = 1.
Proof. intros H. unfold sign. destruct (Rlt_dec 0 v); [reflexivity | lra]. Qed.

Lemma box_prox_above (lo hi v : R) (s : option R) :
  lo <= hi -> hi <= v -> box_prox lo hi [v] s = [hi].
Proof.
  intros H1 H2. unfold box_prox. simpl. f_equal.
  rewrite Rmin_left by exact H2. apply Rmax_right. exact H1.
Qed.

(** C2 fails on the code.  (1) Two parameters [5] with zero gradients
    and the projections onto [[0, 1]] and [[2, 3]]: both parameters are
    projected onto [[2, 3]], the box given last, where the first should
    go to [1].  (2) No operator for the first parameter, which has no
    gradient, and the projection onto [[2, 3]] for the second: the
    second parameter is passed through the first entry of [self.prox]
    and stays at [5], where it should go to [3].  (3) In [FrankWolfe],
    two parameters [0] with gradient [-1] and the L-infinity balls of
    radius [1] and [2]: both move to the vertex [2] of the ball given
    last, where the first should move to [1]. *)
Theorem step_calls_misaligned_oracle :
  (exists self,
      PGD.init [[5]; [5]] (Some [Some (box_prox 0 1); Some (box_prox 2 3)])
               (PyFloat 0.1) (PyFloat 0.9) "none"
      = Ok (self, [mkParam [5] None None; mkParam [5] None None]) /\
      map data
          (fst (PGD.step self None
                  (with_grads [Some (Dense [0]); Some (Dense [0])]
                              [mkParam [5] None None; mkParam [5] None None])))
      = [[3]; [3]] /\
      box_prox 0 1 [5] None = [1]) /\
  (exists self,
      PGD.init [[5]; [5]] (Some [None; Some (box_prox 2 3)])
               (PyFloat 0.1) (PyFloat 0.9) "none"
      = Ok (self, [mkParam [5] None None; mkParam [5] None None]) /\
      map data
          (fst (PGD.step self None
                  (with_grads [None; Some (Dense [0])]
                              [mkParam [5] None None; mkParam [5] None None])))
      = [[5]; [5]] /\
      box_prox 2 3 [5] None = [3]) /\
  (exists self,
      FrankWolfe.init [[0]; [0]] [linf_ball_lmo 1; linf_ball_lmo 2]
                      (PyFloat 1) (PyFloat 0) (PyFloat 0) "none"
      = Ok (self, [mkParam [0] None None; mkParam [0] None None]) /\
      map data
          (fst (FrankWolfe.step self None
                  (with_grads [Some (Dense [-1]); Some (Dense [-1])]
                              [mkParam [0] None None; mkParam [0] None None])))
      = [[2]; [2]] /\
      fst (linf_ball_lmo 1 [1] [0]) = [1 * 1 - 0]).
Proof.
  split; [|split]; eexists;
    (split; [unfold PGD.init, FrankWolfe.init; simpl;
             rewrite ?Rltb_true by lra;
             rewrite !Rleb_true by lra; reflexivity|]).
  - split; [|apply box_prox_above; lra].
    unfold PGD.step, call_closure. simpl.
    rewrite Rmin_left by lra. rewrite Rmax_right by lra. reflexivity.
  - split; [|apply box_prox_above; lra].
    unfold PGD.step, call_closure. simpl. unfold tsub. simpl.
    repeat f_equal. lra.
  - split.
    + unfold FrankWolfe.step, call_closure. simpl.
      unfold tadd, tsub, tscale, tsign. simpl.
      rewrite sign_pos by lra. repeat f_equal; lra.
    + unfold linf_ball_lmo, tsub, tscale, tsign. simpl.
      rewrite sign_pos by lra. reflexivity.
Qed.

(** * Further properties *)

(** ** Line search: what a returned result satisfies *)

Section LineSearchResults.

Variables (x : tensor) (f_t : R) (f_grad : tensor -> R * tensor).
Variables (certificate max_step_size : R).
Variables (update_direction : tensor) (norm_update_direction : R).

(** The right-hand side of the sufficient decrease test for the
    estimate [L] and the step size [s] a trial settles on. *)
Local Abbreviation rhs_of L s :=
  (if Rlt_dec (certificate / (norm_update_direction * L)) max_step_size
   then - 0.5 * s * certificate
   else - s * certificate + 0.5 * s ^ 2 * L * norm_update_direction).

Lemma ls_trial_ok (L s f : R) (g : tensor) (b : bool) :
  ls_trial x f_t f_grad certificate max_step_size update_direction
           norm_update_direction L = Ok (s, f, g, b) ->
  s <= max_step_size /\
  f_grad (tadd x (tscale s update_direction)) = (f, g) /\
  (b = true -> f - f_t <= rhs_of L s + EPS).
Proof.
  unfold ls_trial, py_div.
  destruct (Req_dec_T (norm_update_direction * L) 0); [discriminate|].
  cbv beta iota delta [rbind].
  destruct (Rlt_dec (certificate / (norm_update_direction * L)) max_step_size)
    as [Hlt | Hge].
  - destruct (f_grad _) as [f' g'] eqn:E. intros H. injection H as <- <- <- <-.
    rewrite E. split; [lra|]. split; [reflexivity|].
    unfold Rleb. destruct (Rle_dec _ _); [intros _; lra | discriminate].
  - destruct (f_grad _) as [f' g'] eqn:E. intros H. injection H as <- <- <- <-.
    rewrite E. split; [lra|]. split; [reflexivity|].
    unfold Rleb. destruct (Rle_dec _ _); [intros _; lra | discriminate].
Qed.

Lemma ls_for_ok (n : nat) : forall (L : R) (w : bool) (s L' f : R) (g : tensor),
  ls_for x f_t f_grad certificate max_step_size update_direction
         norm_update_direction n L = Ok (w, (s, L', f, g)) ->
  s <= max_step_size /\
  f_grad (tadd x (tscale s update_direction)) = (f, g) /\
  (exists k, (k <= S n)%nat /\ L' = L * 2 ^ k /\ (w = true <-> k = S n)) /\
  (w = false -> f - f_t <= rhs_of L' s + EPS).
Proof.
  induction n as [|n IH]; intros L w s L' f g; simpl;
    destruct (ls_trial _ _ _ _ _ _ _ L) as [[[[s0 f0] g0] b]|] eqn:E;
    try discriminate; cbv beta iota delta [rbind];
    destruct (ls_trial_ok _ _ _ _ _ E) as (Hs & Hf & Hb); destruct b.
  - intros H. injection H as <- <- <- <- <-.
    repeat split; auto.
    exists O. split; [lia|]. split; [simpl; lra|]. split; [discriminate | lia].
  - intros H. injection H as <- <- <- <- <-.
    repeat split; auto; try discriminate.
    exists 1%nat. split; [lia|]. split; [simpl; lra|]. split; reflexivity.
  - intros H. injection H as <- <- <- <- <-.
    repeat split; auto.
    exists O. split; [lia|]. split; [simpl; lra|]. split; [discriminate | lia].
  - intros H. apply IH in H. destruct H as (H1 & H2 & (k & Hk & HL & Hw) & H4).
    repeat split; auto.
    exists (S k). split; [lia|]. split.
    + rewrite HL. simpl. ring.
    + rewrite Hw. lia.
Qed.

End LineSearchResults.

(** The run of the example of C4, for the witnesses below. *)
Lemma half_square_result :
  backtracking_step_size [0] 0 None half_square 1 1 10 [1] 1
  = Ok (false, (/ 2 ^ 23, 2 ^ 23, / 2 ^ 47, [/ 2 ^ 23])).
Proof.
  run_half_square_search.
  reflexivity.
Qed.

(** X1: whatever the search returns, with or without the warning, the
    step size is at most [max_step_size], and the objective value and
    gradient returned are those of [f_grad] at [x + step_size * d]. *)
Theorem backtracking_result_is_feasible_and_consistent
    (x : tensor) (f_t : R) (old_f_t : option R)
    (f_grad : tensor -> R * tensor) (certificate lipschitz_t max_step_size : R)
    (update_direction : tensor) (norm_update_direction : R)
    (warned : bool) (s L' f : R) (g : tensor) :
  backtracking_step_size x f_t old_f_t f_grad certificate lipschitz_t
                         max_step_size update_direction norm_update_direction
  = Ok (warned, (s, L', f, g)) ->
  s <= max_step_size /\
  f_grad (tadd x (tscale s update_direction)) = (f, g).
Proof.
  unfold backtracking_step_size.
  destruct (ls_initial_lipschitz _ _ _ _ _) as [L1|]; [|discriminate].
  cbv beta iota delta [rbind]. intros H.
  apply ls_for_ok in H. destruct H as (H1 & H2 & _). split; assumption.
Qed.

Lemma backtracking_result_is_feasible_and_consistent_witness :
  / 2 ^ 23 <= 10 /\
  half_square (tadd [0] (tscale (/ 2 ^ 23) [1])) = (/ 2 ^ 47, [/ 2 ^ 23]).
Proof.
  exact (backtracking_result_is_feasible_and_consistent
           _ _ _ _ _ _ _ _ _ _ _ _ _ _ half_square_result).
Defined.

(** X2: a result without warning satisfies the sufficient decrease
    condition for the estimate it returns, and that estimate is the one
    the loop started from doubled once per rejected trial, fewer than
    100 times. *)
Theorem backtracking_accepted_satisfies_sufficient_decrease
    (x : tensor) (f_t : R) (old_f_t : option R)
    (f_grad : tensor -> R * tensor) (certificate lipschitz_t max_step_size : R)
    (update_direction : tensor) (norm_update_direction : R)
    (L1 s L' f : R) (g : tensor) :
  ls_initial_lipschitz f_t certificate norm_update_direction
                       old_f_t lipschitz_t = Ok L1 ->
  backtracking_step_size x f_t old_f_t f_grad certificate lipschitz_t
                         max_step_size update_direction norm_update_direction
  = Ok (false, (s, L', f, g)) ->
  (exists k, (k < max_ls_iter)%nat /\ L' = L1 * 2 ^ k) /\
  f - f_t
  <= (if Rlt_dec (certificate / (norm_update_direction * L')) max_step_size
      then - 0.5 * s * certificate
      else - s * certificate + 0.5 * s ^ 2 * L' * norm_update_direction)
     + EPS.
Proof.
  intros HL. unfold backtracking_step_size. rewrite HL.
  cbv beta iota delta [rbind]. change (pred max_ls_iter) with 99%nat.
  intros H. apply ls_for_ok in H.
  destruct H as (_ & _ & (k & Hk & HL' & Hw) & Hdec). split.
  - exists k. split; [|exact HL'].
    assert (k <> 100%nat) by (intros E; apply Hw in E; discriminate).
    unfold max_ls_iter. lia.
  - apply Hdec. reflexivity.
Qed.

Lemma backtracking_accepted_satisfies_sufficient_decrease_witness :
  (exists k, (k < max_ls_iter)%nat /\ 2 ^ 23 = 1 * 2 ^ k) /\
  / 2 ^ 47 - 0
  <= (if Rlt_dec (1 / (1 * 2 ^ 23)) 10
      then - 0.5 * / 2 ^ 23 * 1
      else - / 2 ^ 23 * 1 + 0.5 * (/ 2 ^ 23) ^ 2 * 2 ^ 23 * 1)
     + EPS.
Proof.
  exact (backtracking_accepted_satisfies_sufficient_decrease
           [0] 0 None half_square 1 1 10 [1] 1 1 _ _ _ _
           eq_refl half_square_result).
Defined.

(** X3: the adjustment made when [old_f_t] is given never raises a
    nonnegative estimate and never lowers it below 90% of its value. *)
Theorem ls_initial_lipschitz_bounds
    (f_t certificate norm_update_direction old_f_t lipschitz_t L1 : R) :
  0 <= lipschitz_t ->
  ls_initial_lipschitz f_t certificate norm_update_direction
                       (Some old_f_t) lipschitz_t = Ok L1 ->
  lipschitz_t * 0.9 <= L1 <= lipschitz_t.
Proof.
  intros HL. unfold ls_initial_lipschitz, py_div.
  destruct (Req_dec_T _ 0); [discriminate|].
  cbv beta iota delta [rbind]. intros H. injection H as <-.
  split.
  - apply Rmax_r.
  - apply Rmax_lub; [apply Rmin_r | lra].
Qed.

Lemma ls_initial_lipschitz_bounds_witness :
  1 * 0.9 <= Rmax (Rmin (1 ^ 2 / (2 * (2 - 1) * 1)) 1) (1 * 0.9) <= 1.
Proof.
  apply (ls_initial_lipschitz_bounds 1 1 1 2 1).
  - lra.
  - unfold ls_initial_lipschitz. rewrite py_div_ok by lra. reflexivity.
Defined.




(** ** [normalize_gradient] *)

Lemma sign_idempotent (v : R) : sign (sign v) = sign v.
Proof.
  unfold sign. destruct (Rlt_dec 0 v); [|destruct (Rlt_dec v 0)].
  - destruct (Rlt_dec 0 1); [reflexivity | lra].
  - destruct (Rlt_dec 0 (-1)); [lra|]. destruct (Rlt_dec (-1) 0); [reflexivity | lra].
  - destruct (Rlt_dec 0 0); [lra | reflexivity].
Qed.

(** X5: the ['sign'] normalization is idempotent. *)
Theorem normalize_gradient_sign_idempotent (grad : tensor) :
  normalize_gradient (normalize_gradient grad "sign") "sign"
  = normalize_gradient grad "sign".
Proof.
  change (tsign (tsign grad) = tsign grad). unfold tsign.
  rewrite map_map. apply map_ext. exact sign_idempotent.
Qed.

Lemma tsum_squares_tdiv (c : R) (a : tensor) :
  c <> 0 ->
  tsum (map (fun x => x * x) (tdiv a c))
  = tsum (map (fun x => x * x) a) / (c * c).
Proof.
  intros Hc. unfold tdiv. induction a as [|x a IH]; simpl.
  - unfold Rdiv. ring.
  - rewrite IH. field. exact Hc.
Qed.

(** X6: the ['L2'] normalization of a gradient with nonzero norm has
    norm [1]. *)
Theorem normalize_gradient_L2_unit_norm (grad : tensor) :
  tnorm grad <> 0 ->
  tnorm (normalize_gradient grad "L2") = 1.
Proof.
  intros Hn. change (tnorm (tdiv grad (tnorm grad)) = 1).
  unfold tnorm at 1. rewrite tsum_squares_tdiv by exact Hn.
  unfold tnorm. rewrite sqrt_sqrt by apply tsum_squares_nonneg.
  unfold tnorm in Hn.
  assert (Hs : tsum (map (fun x => x * x) grad) <> 0).
  { intros E. apply Hn. rewrite E. apply sqrt_0. }
  replace (_ / _) with 1 by (field; exact Hs). apply sqrt_1.
Qed.

Lemma normalize_gradient_L2_unit_norm_witness :
  tnorm (normalize_gradient [3; 4] "L2") = 1.
Proof.
  apply normalize_gradient_L2_unit_norm.
  intros H. apply tnorm_zero in H. inversion_clear H as [|? ? H3 _]. lra.
Defined.

Lemma fold_left_Rmax_ge (a : tensor) : forall x : R, x <= fold_left Rmax a x.
Proof.
  induction a as [|y a IH]; intros x; simpl; [lra|].
  apply Rle_trans with (Rmax x y); [apply Rmax_l | apply IH].
Qed.

Lemma fold_left_Rmax_div (m : R) (a : tensor) : forall x : R,
  0 < m ->
  fold_left Rmax (map (fun v => v / m) a) (x / m) = fold_left Rmax a x / m.
Proof.
  induction a as [|y a IH]; intros x Hm; simpl; [reflexivity|].
  rewrite <- IH by exact Hm. f_equal.
  unfold Rmax. destruct (Rle_dec (x / m) (y / m)) as [H | H];
    destruct (Rle_dec x y) as [H' | H']; try reflexivity; exfalso.
  - apply H'. apply Rmult_le_reg_r with (/ m); [now apply Rinv_0_lt_compat|].
    exact H.
  - apply H. apply Rmult_le_compat_r; [|exact H'].
    left. now apply Rinv_0_lt_compat.
Qed.

Lemma tabs_tdiv (m : R) (a : tensor) :
  0 < m -> tabs (tdiv a m) = tdiv (tabs a) m.
Proof.
  intros Hm. unfold tabs, tdiv. rewrite !map_map. apply map_ext. intros v.
  unfold Rdiv. rewrite Rabs_mult. f_equal.
  apply Rabs_pos_eq. left. now apply Rinv_0_lt_compat.
Qed.

Lemma tmax_tabs_nonneg (a : tensor) : 0 <= tmax (tabs a).
Proof.
  destruct a as [|x a]; simpl; [lra|].
  apply Rle_trans with (Rabs x); [apply Rabs_pos | apply fold_left_Rmax_ge].
Qed.

(** X7: the ['Linf'] normalization of a gradient whose largest absolute
    entry is not zero has largest absolute entry [1]. *)
Theorem normalize_gradient_Linf_unit_max (grad : tensor) :
  tmax (tabs grad) <> 0 ->
  tmax (tabs (normalize_gradient grad "Linf")) = 1.
Proof.
  intros Hn. change (tmax (tabs (tdiv grad (tmax (tabs grad)))) = 1).
  assert (Hm : 0 < tmax (tabs grad)).
  { pose proof (tmax_tabs_nonneg grad). lra. }
  rewrite tabs_tdiv by exact Hm.
  destruct grad as [|x a]; [simpl in Hm; lra|].
  set (m := tmax (tabs (x :: a))) in *.
  simpl tabs. simpl tdiv. simpl tmax.
  fold (tdiv (tabs a) m). unfold tdiv.
  rewrite fold_left_Rmax_div by exact Hm.
  change (fold_left Rmax (tabs a) (Rabs x)) with m.
  field. lra.
Qed.

Lemma normalize_gradient_Linf_unit_max_witness :
  tmax (tabs (normalize_gradient [3; -4] "Linf")) = 1.
Proof.
  apply normalize_gradient_Linf_unit_max.
  simpl. pose proof (fold_left_Rmax_ge [Rabs (-4)] (Rabs 3)) as H.
  simpl in H. assert (0 < Rabs 3) by (apply Rabs_pos_lt; lra). lra.
Defined.


(** ** The constructors *)


Lemma Rltb_spec (a b : R) : Rltb a b = true <-> a < b.
Proof.
  unfold Rltb. destruct (Rlt_dec a b); split; auto; discriminate.
Qed.


Lemma last_cons_default {A : Type} (l : list A) : forall (a d d' : A),
  last (a :: l) d = last (a :: l) d'.
Proof.
  induction l as [|b l IH]; intros a d d'; [reflexivity|].
  change (last (b :: l) d = last (b :: l) d'). apply IH.
Qed.

(** The loop of [PGD.__init__] appends one function per operator and
    leaves its variable bound to the last operator. *)
Lemma PGD_wrap_spec (prox : list (option prox_oracle)) :
  forall (self_prox : list prox_closure) (prox_el : option prox_oracle),
    PGD.wrap prox self_prox prox_el
    = (self_prox
         ++ map (fun el : option prox_oracle =>
                   match el with Some _ => late_prox | None => identity_prox end)
                prox,
       last prox prox_el).
Proof.
  induction prox as [|el rest IH]; intros self_prox prox_el; simpl.
  - now rewrite app_nil_r.
  - rewrite IH, <- app_assoc. simpl. f_equal.
    destruct rest; [reflexivity | apply last_cons_default].
Qed.






(** X13: [PGD.__init__] stores one function per supplied operator, in
    order.  The function stored for an operator does not call that
    operator but the entry supplied last, on the point alone, and
    raises [TypeError] when that last entry is [None]; the function
    stored for a [None] entry returns its argument. *)
Theorem PGD_init_functions_call_last_operator
    (params : list tensor) (prox : list (option prox_oracle))
    (lr momentum : pyval) (normalization : string)
    (self : PGD.optimizer) (ps : list (param PGD.State)) :
  PGD.init params (Some prox) lr momentum normalization = Ok (self, ps) ->
  List.length (PGD.prox self) = List.length prox /\
  forall (i : nat) (el : option prox_oracle) (x : tensor) (s : R),
    nth_error prox i = Some el ->
    exists f,
      getitem (PGD.prox self) i = Ok f /\
      PGD.call self f x s
      = match el, last prox None with
        | None, _ => Ok x
        | Some _, Some last_o => Ok (last_o x None)
        | Some _, None => Raise TypeError
        end.
Proof.
  unfold PGD.init. rewrite PGD_wrap_spec. simpl.
  destruct (negb _); [discriminate|].
  destruct (match momentum with PyFloat _ => _ | _ => _ end); [discriminate|].
  destruct (negb _); [discriminate|].
  intros H. injection H as <- <-. simpl. split; [apply length_map|].
  intros i el x s Hi. unfold getitem.
  rewrite nth_error_map, Hi. simpl. eexists. split; [reflexivity|].
  unfold PGD.call. simpl. destruct el; [|reflexivity].
  destruct (last prox None); reflexivity.
Qed.

Lemma PGD_init_functions_call_last_operator_witness :
  exists f,
    getitem [late_prox; late_prox] O = Ok f /\
    PGD.call {| PGD.prox := [late_prox; late_prox];
                PGD.prox_el := Some (box_prox 2 3);
                PGD.lr := PyFloat 0.1; PGD.momentum := PyFloat 0.9;
                PGD.normalization := "none" |} f [5] 1
    = Ok (box_prox 2 3 [5] None).
Proof.
  assert (Hinit :
    PGD.init [[5]; [5]] (Some [Some (box_prox 0 1); Some (box_prox 2 3)])
             (PyFloat 0.1) (PyFloat 0.9) "none"
    = Ok ({| PGD.prox := [late_prox; late_prox];
             PGD.prox_el := Some (box_prox 2 3);
             PGD.lr := PyFloat 0.1; PGD.momentum := PyFloat 0.9;
             PGD.normalization := "none" |}, register [[5]; [5]])).
  { unfold PGD.init. simpl. rewrite !Rleb_true by lra. reflexivity. }
  exact (proj2 (PGD_init_functions_call_last_operator _ _ _ _ _ _ _ Hinit)
               O (Some (box_prox 0 1)) [5] 1 eq_refl).
Defined.

(** ** The loop over the parameters, continued *)

Section ForParamsMore.

Context {S L : Type}.
Variable body : L -> gradient -> @M S L.

Lemma for_params_length (params : list (param S)) : forall locals : L,
  List.length (fst (for_params body locals params)) = List.length params.
Proof.
  induction params as [|p rest IH]; intros locals; simpl; [reflexivity|].
  destruct (grad p) as [g|].
  - destruct (body locals g p) as [p' [locals' | e]]; simpl; [|reflexivity].
    specialize (IH locals'). destruct (for_params body locals' rest).
    simpl in *. now rewrite IH.
  - specialize (IH locals). destruct (for_params body locals rest).
    simpl in *. now rewrite IH.
Qed.

(** The body never rebinds [p.grad]. *)
Hypothesis body_keeps_grad :
  forall locals g p, grad (fst (body locals g p)) = grad p.

Lemma for_params_keeps_grads (params : list (param S)) : forall locals : L,
  map grad (fst (for_params body locals params)) = map grad params.
Proof.
  induction params as [|p rest IH]; intros locals; simpl; [reflexivity|].
  destruct (grad p) as [g|] eqn:Eg.
  - pose proof (body_keeps_grad locals g p) as Hg.
    destruct (body locals g p) as [p' [locals' | e]]; simpl in *.
    + specialize (IH locals'). destruct (for_params body locals' rest).
      simpl in *. now rewrite Hg, Eg, IH.
    + now rewrite Hg, Eg.
  - specialize (IH locals). destruct (for_params body locals rest).
    simpl in *. now rewrite Eg, IH.
Qed.

End ForParamsMore.

Section ForParamsRaise.

Context {S L : Type}.
Variable body : L -> gradient -> @M S L.

(** When the body raises at a parameter, the updates of the parameters
    before it stay, and the parameters after it are not touched. *)
Lemma for_params_raise_at (before : list (param S)) :
  forall (locals locals' : L) (before' : list (param S))
         (p p' : param S) (g : gradient) (e : exn) (after : list (param S)),
    for_params body locals before = (before', Ok locals') ->
    grad p = Some g ->
    body locals' g p = (p', Raise e) ->
    for_params body locals (before ++ p :: after)
    = (before' ++ p' :: after, Raise e).
Proof.
  induction before as [|q rest IH];
    intros locals locals' before' p p' g e after Hb Hg Hp; simpl in *.
  - injection Hb as <- <-. rewrite Hg, Hp. reflexivity.
  - destruct (grad q) as [gq|].
    + destruct (body locals gq q) as [q' [l1 | e1]]; [|discriminate].
      destruct (for_params body l1 rest) as [rest' r] eqn:Er.
      injection Hb as <- ->.
      rewrite (IH _ _ _ _ _ _ _ after Er Hg Hp). reflexivity.
    + destruct (for_params body locals rest) as [rest' r] eqn:Er.
      injection Hb as <- ->.
      rewrite (IH _ _ _ _ _ _ _ after Er Hg Hp). reflexivity.
Qed.

(** Without any gradient the loop does nothing. *)
Lemma for_params_no_gradient (params : list (param S)) (locals : L) :
  Forall (fun p => grad p = None) params ->
  for_params body locals params = (params, Ok locals).
Proof.
  induction 1 as [|p rest Hp _ IH]; simpl; [reflexivity|].
  rewrite Hp, IH. reflexivity.
Qed.

End ForParamsRaise.

(** Two bodies that agree give the same loop. *)
Lemma for_params_ext {S L : Type} (body1 body2 : L -> gradient -> @M S L)
    (params : list (param S)) :
  (forall locals g p, body1 locals g p = body2 locals g p) ->
  forall locals, for_params body1 locals params = for_params body2 locals params.
Proof.
  intros E. induction params as [|p rest IH]; intros locals; simpl;
    [reflexivity|].
  destruct (grad p) as [g|]; [rewrite E|]; try rewrite IH; try reflexivity.
  destruct (body2 locals g p) as [p' [l'|e]]; [rewrite IH|]; reflexivity.
Qed.

(** ** What every step keeps *)

Lemma mbind_keeps_grad {S A B : Type} (m : @M S A) (k : A -> @M S B)
    (p : param S) :
  (forall q, grad (fst (m q)) = grad q) ->
  (forall a q, grad (fst (k a q)) = grad q) ->
  grad (fst (mbind m k p)) = grad p.
Proof.
  intros Hm Hk. unfold mbind. specialize (Hm p).
  destruct (m p) as [p' [a | e]]; simpl in *; [|exact Hm].
  now rewrite Hk.
Qed.

(** Follows the structure of a body: binds, branches, primitives. *)
Ltac keeps_grad :=
  repeat first
    [ progress intros
    | reflexivity
    | apply mbind_keeps_grad
    | match goal with
      | |- context [match ?x with _ => _ end] => is_var x; destruct x
      | |- context [match ?x with _ => _ end] => destruct x
      end ].

Lemma PGD_body_keeps_grad (self : PGD.optimizer) (idx : nat) (g : gradient)
    (p : param PGD.State) :
  grad (fst (PGD.body self idx g p)) = grad p.
Proof. unfold PGD.body. keeps_grad. Qed.

Lemma PGDMadry_body_keeps_grad (self : PGDMadry.optimizer)
    (locals : nat * pyval) (g : gradient) (p : param PGDMadry.State) :
  grad (fst (PGDMadry.body self locals g p)) = grad p.
Proof. unfold PGDMadry.body. keeps_grad. Qed.

Lemma S3CM_body_keeps_grad (self : S3CM.optimizer) (idx : nat) (g : gradient)
    (p : param S3CM.State) :
  grad (fst (S3CM.body self idx g p)) = grad p.
Proof. unfold S3CM.body. keeps_grad. Qed.

Lemma FrankWolfe_body_keeps_grad (self : FrankWolfe.optimizer) (idx : nat)
    (g : gradient) (p : param FrankWolfe.State) :
  grad (fst (FrankWolfe.body self idx g p)) = grad p.
Proof. unfold FrankWolfe.body. keeps_grad. Qed.

(** X14: a step of any of the four optimizers keeps the number of
    parameters and rebinds no gradient: after the step every parameter
    has the gradient it had when the loop started (after the closure,
    when one is given), also when the step raises. *)
Theorem step_keeps_gradients :
  (forall self closure params,
      map grad (fst (PGD.step self closure params))
      = map grad (fst (call_closure closure params))) /\
  (forall self step_size closure params,
      map grad (fst (PGDMadry.step self step_size closure params))
      = map grad (fst (call_closure closure params))) /\
  (forall self closure params,
      map grad (fst (S3CM.step self closure params))
      = map grad (fst (call_closure closure params))) /\
  (forall self closure params,
      map grad (fst (FrankWolfe.step self closure params))
      = map grad (fst (call_closure closure params))).
Proof.
  repeat split; intros.
  - unfold PGD.step. destruct (call_closure closure params) as [ps loss].
    pose proof (for_params_keeps_grads (PGD.body self)
                  (PGD_body_keeps_grad self) ps O) as H.
    destruct (for_params (PGD.body self) O ps). exact H.
  - unfold PGDMadry.step. destruct (call_closure closure params) as [ps loss].
    pose proof (for_params_keeps_grads (PGDMadry.body self)
                  (PGDMadry_body_keeps_grad self) ps (O, step_size)) as H.
    destruct (for_params (PGDMadry.body self) (O, step_size) ps). exact H.
  - unfold S3CM.step. destruct (call_closure closure params) as [ps loss].
    pose proof (for_params_keeps_grads (S3CM.body self)
                  (S3CM_body_keeps_grad self) ps O) as H.
    destruct (for_params (S3CM.body self) O ps). exact H.
  - unfold FrankWolfe.step. destruct (call_closure closure params) as [ps loss].
    pose proof (for_params_keeps_grads (FrankWolfe.body self)
                  (FrankWolfe_body_keeps_grad self) ps O) as H.
    destruct (for_params (FrankWolfe.body self) O ps). exact H.
Qed.

(** ** Failure of one parameter *)

(** X15: when [PGD.step] meets a parameter with a sparse gradient it
    raises [RuntimeError]; that parameter and those after it are left as
    they were, and the parameters before it keep the updates already
    made. *)
Theorem PGD_step_sparse_gradient_no_rollback
    (self : PGD.optimizer)
    (before before' after : list (param PGD.State))
    (p : param PGD.State) (g : tensor) (idx : nat) :
  for_params (PGD.body self) O before = (before', Ok idx) ->
  grad p = Some (Sparse g) ->
  PGD.step self None (before ++ p :: after)
  = (before' ++ p :: after, Raise RuntimeError).
Proof.
  intros Hb Hg. unfold PGD.step, call_closure.
  rewrite (for_params_raise_at (PGD.body self) before O idx before' p p
             (Sparse g) RuntimeError after Hb Hg eq_refl).
  reflexivity.
Qed.

Lemma PGD_step_sparse_gradient_no_rollback_witness :
  PGD.step {| PGD.prox := [identity_prox; identity_prox]; PGD.prox_el := None;
              PGD.lr := PyFloat 1; PGD.momentum := PyFloat 0;
              PGD.normalization := "none" |}
           None
           ([mkParam [1] None None] ++ mkParam [2] (Some (Sparse [3])) None
              :: [mkParam [4] (Some (Dense [5])) None])
  = ([mkParam [1] None None] ++ mkParam [2] (Some (Sparse [3])) None
       :: [mkParam [4] (Some (Dense [5])) None],
     Raise RuntimeError).
Proof.
  apply (PGD_step_sparse_gradient_no_rollback _ _ _ _ _ [3] O); reflexivity.
Defined.



(** ** Steps without work *)

(** X17: when no parameter has a gradient, a step of any of the four
    optimizers changes nothing and does not raise, whatever the
    optimizer holds (even no oracle at all); it returns the loss of the
    closure, except [S3CM.step], which returns [None]. *)
Theorem step_without_gradients_is_noop :
  (forall self closure params,
      Forall (fun p => grad p = None) (fst (call_closure closure params)) ->
      PGD.step self closure params
      = (fst (call_closure closure params),
         Ok (snd (call_closure closure params)))) /\
  (forall self step_size closure params,
      Forall (fun p => grad p = None) (fst (call_closure closure params)) ->
      PGDMadry.step self step_size closure params
      = (fst (call_closure closure params),
         Ok (snd (call_closure closure params)))) /\
  (forall self closure params,
      Forall (fun p => grad p = None) (fst (call_closure closure params)) ->
      S3CM.step self closure params
      = (fst (call_closure closure params), Ok None)) /\
  (forall self closure params,
      Forall (fun p => grad p = None) (fst (call_closure closure params)) ->
      FrankWolfe.step self closure params
      = (fst (call_closure closure params),
         Ok (snd (call_closure closure params)))).
Proof.
  repeat split; intros.
  - unfold PGD.step. destruct (call_closure closure params) as [ps loss].
    simpl in *. now rewrite for_params_no_gradient.
  - unfold PGDMadry.step. destruct (call_closure closure params) as [ps loss].
    simpl in *. now rewrite for_params_no_gradient.
  - unfold S3CM.step. destruct (call_closure closure params) as [ps loss].
    simpl in *. now rewrite for_params_no_gradient.
  - unfold FrankWolfe.step. destruct (call_closure closure params) as [ps loss].
    simpl in *. now rewrite for_params_no_gradient.
Qed.

Lemma step_without_gradients_is_noop_witness :
  S3CM.step {| S3CM.prox1 := []; S3CM.prox1_ := None;
               S3CM.prox2 := []; S3CM.prox2_ := None;
               S3CM.lr := 1; S3CM.normalization := "none" |}
            (Some (fun ps => (ps, 7)))
            [mkParam [1] None None]
  = ([mkParam [1] None None], Ok None).
Proof.
  destruct step_without_gradients_is_noop as (_ & _ & H & _).
  apply (H _ (Some (fun ps => (ps, 7))) [mkParam [1] None None]).
  repeat constructor.
Defined.


(** ** What a completed update of [S3CM] commits *)

(** X19: after a completed update of a parameter by [S3CM.step], the
    parameter holds [iterate_2], which is the value the function of
    [self.prox2] at the running index returned for the step size [lr];
    [dual] is present, and the step counter is what it was ([0] for a
    new state: it is never advanced). *)
Theorem S3CM_update_commits_iterate_2
    (self : S3CM.optimizer) (idx : nat) (g : gradient)
    (p p' : param S3CM.State) (idx' : nat) :
  S3CM.body self idx g p = (p', Ok idx') ->
  exists st' f x dual,
    state p' = Some st' /\
    S3CM.st_iterate_2 st' = Some (data p') /\
    S3CM.st_dual st' = Some dual /\
    S3CM.st_step st'
    = match state p with Some s => S3CM.st_step s | None => O end /\
    getitem (S3CM.prox2 self) idx = Ok f /\
    S3CM.call (S3CM.prox2_ self) f x (S3CM.lr self) = Ok (data p') /\
    idx' = S idx.
Proof.
  unfold S3CM.body. destruct g as [g | g]; simpl; [|discriminate].
  unfold mbind, get_data, get_state, set_state, copy_, lift, ret, raise,
    S3CM.lookup. simpl.
  destruct (state p) as [s|]; simpl.
  - destruct (getitem (S3CM.prox2 self) idx) as [f|] eqn:Ef; [|discriminate].
    destruct (S3CM.st_dual s) as [dual|]; [|discriminate].
    destruct (S3CM.call (S3CM.prox2_ self) f _ (S3CM.lr self))
      as [i2|] eqn:E2; [|discriminate].
    destruct (getitem (S3CM.prox1 self) idx) as [f1|]; [|discriminate].
    destruct (S3CM.call (S3CM.prox1_ self) f1 _ (S3CM.lr self))
      as [i1|]; [|discriminate].
    intros H. injection H as <- <-. simpl.
    eexists _, f, _, _. repeat split; eauto.
  - destruct (getitem (S3CM.prox2 self) idx) as [f|] eqn:Ef; [|discriminate].
    destruct (S3CM.call (S3CM.prox2_ self) f (data p) (S3CM.lr self))
      as [i0|]; [|discriminate]. simpl.
    destruct (S3CM.call (S3CM.prox2_ self) f _ (S3CM.lr self))
      as [i2|] eqn:E2; [|discriminate].
    destruct (getitem (S3CM.prox1 self) idx) as [f1|]; [|discriminate].
    destruct (S3CM.call (S3CM.prox1_ self) f1 _ (S3CM.lr self))
      as [i1|]; [|discriminate].
    intros H. injection H as <- <-. simpl.
    eexists _, f, _, _. repeat split; eauto.
Qed.

Lemma S3CM_update_commits_iterate_2_witness :
  let self := {| S3CM.prox1 := [late_prox];
                 S3CM.prox1_ := Some (box_prox 0 1);
                 S3CM.prox2 := [late_prox];
                 S3CM.prox2_ := Some (box_prox 2 3);
                 S3CM.lr := 0.1; S3CM.normalization := "none" |} in
  let p := mkParam [5] (Some (Dense [1])) None in
  let p' := fst (S3CM.body self O (Dense [1]) p) in
  exists st' f x dual,
    state p' = Some st' /\
    S3CM.st_iterate_2 st' = Some (data p') /\
    S3CM.st_dual st' = Some dual /\
    S3CM.st_step st' = O /\
    getitem (S3CM.prox2 self) O = Ok f /\
    S3CM.call (S3CM.prox2_ self) f x (S3CM.lr self) = Ok (data p') /\
    1%nat = 1%nat.
Proof.
  intros self p p'.
  apply (S3CM_update_commits_iterate_2 self O (Dense [1]) p p' 1).
  reflexivity.
Defined.

(** ** [PGD] without operators *)

Lemma tsub_scaled_back (r : R) (p : tensor) : forall g : tensor,
  r <> 0 ->
  List.length g = List.length p ->
  tdiv (tsub p (tsub p (tscale r g))) r = g.
Proof.
  unfold tdiv, tsub, tscale.
  induction p as [|x p IH]; intros [|y g] Hr Hl; simpl in *;
    try discriminate; [reflexivity|].
  f_equal; [field; exact Hr | apply IH; [exact Hr | now injection Hl]].
Qed.

Lemma ema_without_momentum (est : tensor) : forall g : tensor,
  List.length est = List.length g ->
  tadd est (tscale (1 - 0) (tsub g est)) = g.
Proof.
  unfold tadd, tscale, tsub.
  induction est as [|e est IH]; intros [|y g] Hl; simpl in *;
    try discriminate; [reflexivity|].
  f_equal; [ring | apply IH; now injection Hl].
Qed.

(** X20: a parameter that [PGD] updates through [lambda x, s=None: x]
    (no operator was given for it), with momentum [0.0], the
    normalization ["none"] and a nonzero float learning rate, makes a
    plain gradient step: it moves from [p] to [p - lr * grad], the
    gradient estimate is the gradient, and the certificate is the norm
    of the gradient. *)
Theorem PGD_without_operator_is_gradient_descent
    (self : PGD.optimizer) (idx : nat) (g : tensor) (p : param PGD.State)
    (r : R) :
  nth_error (PGD.prox self) idx = Some identity_prox ->
  PGD.lr self = PyFloat r ->
  r <> 0 ->
  PGD.momentum self = PyFloat 0 ->
  PGD.normalization self = "none"%string ->
  List.length g = List.length (data p) ->
  (forall s, state p = Some s ->
             List.length (PGD.st_grad_estimate s) = List.length g) ->
  PGD.body self idx (Dense g) p
  = (mkParam (tsub (data p) (tscale r g)) (grad p)
       (Some {| PGD.st_step :=
                  S (match state p with
                     | Some s => PGD.st_step s
                     | None => O
                     end);
                PGD.st_grad_estimate := g;
                PGD.st_certificate := Some (tnorm g) |}),
     Ok (S idx)).
Proof.
  intros Hf Hlr Hr Hm Hn Hg Hs.
  unfold PGD.body, mbind, get_data, get_state, set_state, copy_, lift, ret,
    raise, getitem, PGD.step_size_of. simpl.
  rewrite Hm, Hf, Hlr, Hn. simpl.
  change (normalize_gradient ?t "none") with t.
  destruct (state p) as [s|]; simpl.
  - rewrite (ema_without_momentum _ g (Hs s eq_refl)).
    rewrite (tsub_scaled_back r (data p) g Hr Hg). reflexivity.
  - rewrite (ema_without_momentum (zeros_like (data p)) g).
    2:{ unfold zeros_like. rewrite length_map. now symmetry. }
    rewrite (tsub_scaled_back r (data p) g Hr Hg). reflexivity.
Qed.

Lemma PGD_without_operator_is_gradient_descent_witness :
  PGD.body {| PGD.prox := [identity_prox]; PGD.prox_el := None;
              PGD.lr := PyFloat 0.5; PGD.momentum := PyFloat 0;
              PGD.normalization := "none" |}
           O (Dense [3; 4]) (mkParam [1; 2] (Some (Dense [3; 4])) None)
  = (mkParam (tsub [1; 2] (tscale 0.5 [3; 4])) (Some (Dense [3; 4]))
       (Some {| PGD.st_step := 1; PGD.st_grad_estimate := [3; 4];
                PGD.st_certificate := Some (tnorm [3; 4]) |}),
     Ok 1%nat).
Proof.
  apply (PGD_without_operator_is_gradient_descent
           _ O [3; 4] (mkParam [1; 2] (Some (Dense [3; 4])) None) 0.5);
    try reflexivity; [lra | discriminate].
Defined.

(** ** The oracle of [FrankWolfe] *)

(** X21: [FrankWolfe.step] does not use the maximal step size its
    oracle returns: two optimizers that differ only in oracles with the
    same update directions make the same step. *)
Theorem FrankWolfe_step_ignores_max_step_size
    (self_lmo : list lmo_closure) (o1 o2 : lmo_oracle)
    (lr momentum weight_decay : pyval) (normalization : string)
    (closure : closure_t FrankWolfe.State)
    (params : list (param FrankWolfe.State)) :
  (forall u x, fst (o1 u x) = fst (o2 u x)) ->
  FrankWolfe.step {| FrankWolfe.lmo := self_lmo; FrankWolfe.oracle := Some o1;
                     FrankWolfe.lr := lr; FrankWolfe.momentum := momentum;
                     FrankWolfe.weight_decay := weight_decay;
                     FrankWolfe.normalization := normalization |}
                  closure params
  = FrankWolfe.step {| FrankWolfe.lmo := self_lmo; FrankWolfe.oracle := Some o2;
                       FrankWolfe.lr := lr; FrankWolfe.momentum := momentum;
                       FrankWolfe.weight_decay := weight_decay;
                       FrankWolfe.normalization := normalization |}
                    closure params.
Proof.
  intros Hd. unfold FrankWolfe.step.
  destruct (call_closure closure params) as [ps loss].
  rewrite (for_params_ext _
             (FrankWolfe.body
                {| FrankWolfe.lmo := self_lmo; FrankWolfe.oracle := Some o2;
                   FrankWolfe.lr := lr; FrankWolfe.momentum := momentum;
                   FrankWolfe.weight_decay := weight_decay;
                   FrankWolfe.normalization := normalization |}));
    [reflexivity|].
  intros idx g p.
  unfold FrankWolfe.body, FrankWolfe.call, mbind, get_data, get_state,
    set_state, copy_, lift, ret, raise. simpl.
  destruct (as_number weight_decay) as [wd|]; [|reflexivity]. simpl.
  destruct (is_sparse g); [reflexivity|].
  destruct (state p) as [s|]; simpl;
    (destruct (py_eq_str lr "sublinear"); [|destruct lr; try reflexivity]);
    simpl;
    (destruct (as_number _) as [m|]; [|reflexivity]); simpl;
    (destruct (getitem self_lmo idx) as [[]|]; [|reflexivity]); simpl;
    match goal with
    | |- context [o1 ?u ?x] =>
        specialize (Hd u x); destruct (o1 u x), (o2 u x)
    end; simpl in Hd; subst; reflexivity.
Qed.

Lemma FrankWolfe_step_ignores_max_step_size_witness :
  FrankWolfe.step {| FrankWolfe.lmo := [late_lmo];
                     FrankWolfe.oracle := Some (linf_ball_lmo 1);
                     FrankWolfe.lr := PyFloat 1; FrankWolfe.momentum := PyFloat 0;
                     FrankWolfe.weight_decay := PyFloat 0;
                     FrankWolfe.normalization := "none" |}
                  None [mkParam [0] (Some (Dense [1])) None]
  = FrankWolfe.step {| FrankWolfe.lmo := [late_lmo];
                       FrankWolfe.oracle :=
                         Some (fun u x => (fst (linf_ball_lmo 1 u x), 0));
                       FrankWolfe.lr := PyFloat 1;
                       FrankWolfe.momentum := PyFloat 0;
                       FrankWolfe.weight_decay := PyFloat 0;
                       FrankWolfe.normalization := "none" |}
                    None [mkParam [0] (Some (Dense [1])) None].
Proof.
  apply (FrankWolfe_step_ignores_max_step_size
           [late_lmo] (linf_ball_lmo 1)
           (fun u x => (fst (linf_ball_lmo 1 u x), 0))).
  reflexivity.
Defined.

(** X22: in an optimizer returned by [FrankWolfe.__init__] with a float
    or ["sublinear"] learning rate, a completed update moves the
    parameter to [p + s * d], where [d] is the direction the oracle
    returned for minus the new gradient estimate and [s <= 1]; the
    certificate is the sum of the entries of [- grad_estimate * d]. *)
Theorem FrankWolfe_update_step_size_at_most_1
    (params : list tensor) (lmo : list lmo_oracle)
    (lr momentum weight_decay : pyval) (normalization : string)
    (self : FrankWolfe.optimizer) (ps : list (param FrankWolfe.State))
    (idx : nat) (g : gradient) (p p' : param FrankWolfe.State) (idx' : nat) :
  FrankWolfe.init params lmo lr momentum weight_decay normalization
  = Ok (self, ps) ->
  FrankWolfe.body self idx g p = (p', Ok idx') ->
  exists (o : lmo_oracle) (st' : FrankWolfe.State) (s : R),
    FrankWolfe.oracle self = Some o /\
    state p' = Some st' /\
    let d := fst (o (tneg (FrankWolfe.st_grad_estimate st')) (data p)) in
    s <= 1 /\
    data p' = tadd (data p) (tscale s d) /\
    FrankWolfe.st_certificate st'
    = Some (tsum (tmul (tneg (FrankWolfe.st_grad_estimate st')) d)).
Proof.
  intros Hinit.
  assert (Hlr : forall r, FrankWolfe.lr self = PyFloat r -> r <= 1).
  { revert Hinit. unfold FrankWolfe.init.
    destruct (FrankWolfe.wrap _ _ _) as [self_lmo oracle].
    destruct lr as [r0|z|str|]; simpl.
    1:{ destruct (Rltb 0 r0 && Rleb r0 1) eqn:E; [|discriminate]. simpl.
        apply andb_true_iff in E. destruct E as [_ E].
        unfold Rleb in E. destruct (Rle_dec r0 1); [|discriminate].
        destruct (match momentum with PyFloat _ => _ | _ => _ end);
          [discriminate|].
        destruct (as_number weight_decay); [|discriminate]. simpl.
        destruct (negb _); [discriminate|].
        destruct (negb _); [discriminate|].
        intros H. injection H as <- <-. simpl. intros r' H.
        now injection H as <-. }
    all: destruct (match momentum with PyFloat _ => _ | _ => _ end);
      [discriminate|];
      (destruct (as_number weight_decay); [|discriminate]); simpl;
      (destruct (negb _); [discriminate|]);
      (destruct (negb _); [discriminate|]);
      intros H; injection H as <- <-; simpl; intros r' H; discriminate. }
  clear Hinit.
  unfold FrankWolfe.body, FrankWolfe.call, mbind, get_data, get_state,
    set_state, copy_, lift, ret, raise. simpl.
  destruct (as_number (FrankWolfe.weight_decay self)) as [wd|];
    [|discriminate]. simpl.
  destruct g as [g | g]; simpl; [|discriminate].
  assert (Hsub : forall n : nat, 1 / (INR n + 1) <= 1).
  { intros n. pose proof (pos_INR n).
    apply Rmult_le_reg_r with (INR n + 1); [lra|].
    replace (1 / (INR n + 1) * (INR n + 1)) with 1 by (field; lra). lra. }
  assert (Hcap : forall s0 t, s0 <= 1 ->
             (if (FrankWolfe.normalization self =? "gradient")%string
              then Rmin 1 t else s0) <= 1).
  { intros s0 t H0. destruct (_ =? _)%string; [apply Rmin_l | exact H0]. }
  destruct (state p) as [s|]; simpl;
    (destruct (py_eq_str (FrankWolfe.lr self) "sublinear");
     [|destruct (FrankWolfe.lr self) as [r|z|str|] eqn:Er; try discriminate]);
    simpl;
    (destruct (as_number _) as [m|]; [|discriminate]); simpl;
    (destruct (getitem (FrankWolfe.lmo self) idx) as [[]|]; [|discriminate]);
    simpl;
    (destruct (FrankWolfe.oracle self) as [o|]; [|discriminate]); simpl;
    match goal with
    | |- context [o ?u ?x] => destruct (o u x) as [d mx] eqn:Eo
    end; simpl; intros H; injection H as <- <-; simpl;
    exists o; eexists; eexists; (split; [reflexivity|]);
    (split; [reflexivity|]); simpl; rewrite Eo; simpl;
    (split; [|split; reflexivity]);
    apply Hcap; first [apply Hsub | now apply Hlr | apply (Hsub O)].
Qed.

Lemma FrankWolfe_update_step_size_at_most_1_witness :
  let self := {| FrankWolfe.lmo := [late_lmo];
                 FrankWolfe.oracle := Some (linf_ball_lmo 1);
                 FrankWolfe.lr := PyFloat 1; FrankWolfe.momentum := PyFloat 0;
                 FrankWolfe.weight_decay := PyFloat 0;
                 FrankWolfe.normalization := "none" |} in
  let p := mkParam [0] (Some (Dense [-1])) None in
  let p' := fst (FrankWolfe.body self O (Dense [-1]) p) in
  exists (o : lmo_oracle) (st' : FrankWolfe.State) (s : R),
    FrankWolfe.oracle self = Some o /\
    state p' = Some st' /\
    let d := fst (o (tneg (FrankWolfe.st_grad_estimate st')) (data p)) in
    s <= 1 /\
    data p' = tadd (data p) (tscale s d) /\
    FrankWolfe.st_certificate st'
    = Some (tsum (tmul (tneg (FrankWolfe.st_grad_estimate st')) d)).
Proof.
  intros self p p'.
  apply (FrankWolfe_update_step_size_at_most_1
           [[0]] [linf_ball_lmo 1] (PyFloat 1) (PyFloat 0) (PyFloat 0) "none"
           self (register [[0]]) O (Dense [-1]) p p' 1).
  - unfold FrankWolfe.init. simpl.
    rewrite Rltb_true by lra. rewrite !Rleb_true by lra. reflexivity.
  - reflexivity.
Defined.

(** ** [PGDMadry] *)




Lemma PGDMadry_body_ok (self : PGDMadry.optimizer) (locals : nat * pyval)
    (g : gradient) (p p' : param PGDMadry.State) (locals' : nat * pyval) :
  PGDMadry.body self locals g p = (p', Ok locals') ->
  exists (step_size : R) (st' : PGDMadry.State),
    state p' = Some st' /\
    as_number (if py_eq_str (PGDMadry.lr self) "sublinear"
               then PyFloat (1 / (INR (PGDMadry.st_step st') + 1))
               else PGDMadry.lr self) = Ok step_size /\
    PGDMadry.st_certificate st'
    = Some (tnorm (tdiv (tsub (data p) (data p')) step_size)).
Proof.
  unfold PGDMadry.body. destruct locals as [idx s0].
  destruct g as [grad | grad]; simpl; [|discriminate].
  unfold mbind, get_data, get_state, set_state, copy_, lift, ret. simpl.
  destruct (state p) as [s|]; simpl;
    (destruct (getitem (PGDMadry.lmo self) idx) as [f|]; [|discriminate]);
    (destruct (PGDMadry.call_lmo self f _ _) as [[d mx]|]; [|discriminate]);
    simpl;
    (destruct (getitem (PGDMadry.prox self) idx) as [f'|]; [|discriminate]);
    (destruct (as_number _) as [step_size|] eqn:Es; [|discriminate]);
    (destruct (PGDMadry.call_prox self f' _ None) as [new_p|]; [|discriminate]);
    intros H; injection H as <- <-; simpl;
    exists step_size; eexists; repeat split; eauto.
Qed.

(** X23: after a completed update by [PGDMadry.step] with a positive
    step size in which the operator returns a point of the parameter's
    shape, the stored certificate is [>= 0], and it is [0] exactly when
    the parameter was left where it was. *)
Theorem PGDMadry_certificate_zero_iff_unchanged
    (self : PGDMadry.optimizer) (locals : nat * pyval) (g : gradient)
    (p p' : param PGDMadry.State) (locals' : nat * pyval) :
  PGDMadry.body self locals g p = (p', Ok locals') ->
  (forall r, as_number (PGDMadry.lr self) = Ok r -> 0 < r) ->
  List.length (data p') = List.length (data p) ->
  exists (st' : PGDMadry.State) (c : R),
    state p' = Some st' /\
    PGDMadry.st_certificate st' = Some c /\
    0 <= c /\
    (c = 0 <-> data p' = data p).
Proof.
  intros H Hpos Hlen.
  destruct (PGDMadry_body_ok _ _ _ _ _ _ H) as (s & st' & Hst & Hs & Hcert).
  assert (Hs0 : 0 < s).
  { destruct (py_eq_str (PGDMadry.lr self) "sublinear").
    - simpl in Hs. injection Hs as <-. pose proof (pos_INR (PGDMadry.st_step st')).
      apply Rdiv_lt_0_compat; lra.
    - now apply Hpos. }
  exists st', (tnorm (tdiv (tsub (data p) (data p')) s)).
  split; [exact Hst|]. split; [exact Hcert|]. split; [apply tnorm_nonneg|].
  rewrite tnorm_zero. apply scaled_difference_zero; [lra | exact Hlen].
Qed.

Lemma PGDMadry_certificate_zero_iff_unchanged_witness :
  let self := {| PGDMadry.prox := [late_prox];
                 PGDMadry.prox_el := Some (box_prox 0 1);
                 PGDMadry.lmo := [late_lmo];
                 PGDMadry.lmo_el := Some (linf_ball_lmo 1);
                 PGDMadry.lr := PyFloat 0.5 |} in
  let p := mkParam [0] (Some (Dense [-1])) None in
  let p' := fst (PGDMadry.body self (O, PyNone) (Dense [-1]) p) in
  exists (st' : PGDMadry.State) (c : R),
    state p' = Some st' /\
    PGDMadry.st_certificate st' = Some c /\
    0 <= c /\
    (c = 0 <-> data p' = data p).
Proof.
  intros self p p'.
  apply (PGDMadry_certificate_zero_iff_unchanged
           self (O, PyNone) (Dense [-1]) p p' (1%nat, PyFloat 0.5)).
  - reflexivity.
  - intros r H. simpl in H. injection H as <-. lra.
  - reflexivity.
Defined.
